(** * Verification of pibooth_ledstrip.py (WS2801 LED strip plugin for pibooth)

    Shallow embedding of the plugin: the [LedBlinker] class, the animation
    routines of [LedsWS2801], its tick loop ([run]) as an explicit state and
    device-operation trace, [configure] and [setConfiguration].

    Python floats are IEEE binary64; the module [F64] below models them
    exactly (values m * 2^e, round-to-nearest-even), so that the timing of
    the blinkers and the hue accumulator compute as in CPython. *)

From Stdlib Require Import ZArith Bool List Lia.
Import ListNotations.
Open Scope Z_scope.

(** ** Binary64 arithmetic *)
Module F64.

(** A float is the dyadic value [man * 2 ^ ex]. *)
Record t := mk { man : Z; ex : Z }.

Definition prec : Z := 53.
Definition emin : Z := -1074.

Definition zero : t := mk 0 0.

(** Canonical representative: odd mantissa (or zero). *)
Definition norm (m e : Z) : t :=
  if m =? 0 then zero else
  let tz := Z.log2 (Z.land (Z.abs m) (- Z.abs m)) in
  mk (Z.shiftr m tz) (e + tz).

(** Round the exact value [m * 2 ^ e] to the nearest binary64, ties to
    even (overflow to infinity is not modelled: every value of the plugin is
    far below it). *)
Definition round (m e : Z) : t :=
  if m =? 0 then zero else
  let a := Z.abs m in
  let k := Z.log2 a + 1 in
  let s := Z.max (k - prec) (emin - e) in
  if s <=? 0 then norm m e else
  let q := Z.shiftr a s in
  let r := a - Z.shiftl q s in
  let half := Z.shiftl 1 (s - 1) in
  let q' := if half <? r then q + 1
            else if r <? half then q
            else if Z.even q then q else q + 1 in
  norm (Z.sgn m * q') (e + s).

(** Exact comparison: both values brought to the smaller exponent. *)
Definition cmp (x y : t) : comparison :=
  let e := Z.min (ex x) (ex y) in
  Z.compare (Z.shiftl (man x) (ex x - e)) (Z.shiftl (man y) (ex y - e)).

Definition ltb (x y : t) : bool := match cmp x y with Lt => true | _ => false end.
Definition leb (x y : t) : bool := match cmp x y with Gt => false | _ => true end.
Definition eqb (x y : t) : bool := match cmp x y with Eq => true | _ => false end.

Definition add (x y : t) : t :=
  let e := Z.min (ex x) (ex y) in
  round (Z.shiftl (man x) (ex x - e) + Z.shiftl (man y) (ex y - e)) e.

Definition neg (x : t) : t := norm (- man x) (ex x).
Definition sub (x y : t) : t := add x (neg y).
Definition mul (x y : t) : t := round (man x * man y) (ex x + ex y).

(** Correctly rounded quotient: at least 55 quotient bits and a sticky bit. *)
Definition div (x y : t) : t :=
  let a := Z.abs (man x) in
  let b := Z.abs (man y) in
  if a =? 0 then zero else
  let s := Z.max 0 (55 + Z.log2 b - Z.log2 a) in
  let q := Z.shiftl a s / b in
  let r := Z.shiftl a s mod b in
  let q2 := 2 * q + (if r =? 0 then 0 else 1) in
  round (Z.sgn (man x) * Z.sgn (man y) * q2) (ex x - ex y - s - 1).

(** Conversion of a Python int. *)
Definition of_Z (n : Z) : t := round n 0.

(** A decimal literal [num / den], parsed as CPython does (correctly
    rounded); also Python's true division [num / den] of two ints. *)
Definition of_ratio (num den : Z) : t := div (of_Z num) (of_Z den).

(** [int(x)]: truncation toward zero. *)
Definition trunc (x : t) : Z :=
  if 0 <=? ex x then Z.shiftl (man x) (ex x)
  else Z.sgn (man x) * Z.shiftr (Z.abs (man x)) (- ex x).

(** [round(x)]: nearest int, ties to even. *)
Definition round_int (x : t) : Z :=
  if 0 <=? ex x then Z.shiftl (man x) (ex x)
  else
    let d := Z.shiftl 1 (- ex x) in
    let q := Z.shiftr (man x) (- ex x) in
    let r := man x - q * d in
    match Z.compare (2 * r) d with
    | Lt => q
    | Gt => q + 1
    | Eq => if Z.even q then q else q + 1
    end.

End F64.

(** Float literals of the source. *)
Definition f_0_01 : F64.t := F64.of_ratio 1 100.
Definition f_0_2 : F64.t := F64.of_ratio 2 10.
Definition f_0_5 : F64.t := F64.of_ratio 5 10.
Definition f_0_6 : F64.t := F64.of_ratio 6 10.
Definition f_1_0 : F64.t := F64.of_Z 1.
Definition f_6_0 : F64.t := F64.of_Z 6.

Example f_0_01_exact : f_0_01 = F64.mk 5764607523034235 (-59).
Proof. vm_compute. reflexivity. Qed.

Example f_0_2_exact : f_0_2 = F64.mk 3602879701896397 (-54).
Proof. vm_compute. reflexivity. Qed.

Example f_0_6_exact : f_0_6 = F64.mk 5404319552844595 (-53).
Proof. vm_compute. reflexivity. Qed.

(** ** Colours *)
Definition rgb : Type := (Z * Z * Z)%type.
Definition black : rgb := (0, 0, 0).
Definition white : rgb := (255, 255, 255).

(** colorsys.hsv_to_rgb *)
Definition hsv_to_rgb (h s v : F64.t) : F64.t * F64.t * F64.t :=
  if F64.eqb s F64.zero then (v, v, v) else
  let i := F64.trunc (F64.mul h f_6_0) in
  let f := F64.sub (F64.mul h f_6_0) (F64.of_Z i) in
  let p := F64.mul v (F64.sub f_1_0 s) in
  let q := F64.mul v (F64.sub f_1_0 (F64.mul s f)) in
  let t := F64.mul v (F64.sub f_1_0 (F64.mul s (F64.sub f_1_0 f))) in
  match i mod 6 with
  | 0 => (v, t, p)
  | 1 => (q, v, p)
  | 2 => (p, v, t)
  | 3 => (p, q, v)
  | 4 => (t, p, v)
  | _ => (v, p, q)
  end.

(** LedsWS2801.hsv: [tuple(round(i * 255) for i in hsv_to_rgb(h, s, v))] *)
Definition hsv (h s v : F64.t) : rgb :=
  let '(r, g, b) := hsv_to_rgb h s v in
  let c x := F64.round_int (F64.mul x (F64.of_Z 255)) in
  (c r, c g, c b).

Example hsv_red : hsv F64.zero f_1_0 f_1_0 = (255, 0, 0).
Proof. vm_compute. reflexivity. Qed.

Example hsv_third : hsv (F64.of_ratio 1 3) f_1_0 f_1_0 = (0, 255, 0).
Proof. vm_compute. reflexivity. Qed.

(** ** LedBlinker *)
Record LedBlinker := {
  time_off : F64.t;
  time_on : F64.t;
  color_on : option rgb;      (* [None] is Python's None *)
  color_off : option rgb;
  is_on : bool;
  elapsed : F64.t;
  enabled : bool
}.

(** LedBlinker.__init__ *)
Definition blinker_init : LedBlinker :=
  {| time_off := f_0_5; time_on := f_0_5; color_on := None; color_off := None;
     is_on := false; elapsed := F64.zero; enabled := false |}.

Definition with_is_on_elapsed (b : LedBlinker) (o : bool) (e : F64.t) : LedBlinker :=
  {| time_off := time_off b; time_on := time_on b; color_on := color_on b;
     color_off := color_off b; is_on := o; elapsed := e; enabled := enabled b |}.

(** LedBlinker.animate, with its default [lastRefresh=0.01]; returns
    [changed] and the updated blinker. *)
Definition blinker_animate (b : LedBlinker) : bool * LedBlinker :=
  if enabled b then
    let e := F64.add (elapsed b) f_0_01 in
    if is_on b then
      if F64.leb (time_on b) e then (true, with_is_on_elapsed b false F64.zero)
      else (false, with_is_on_elapsed b true e)
    else
      if F64.leb (time_off b) e then (true, with_is_on_elapsed b true F64.zero)
      else (false, with_is_on_elapsed b false e)
  else (false, b).

(** LedBlinker.get_color *)
Definition blinker_get_color (b : LedBlinker) : option rgb :=
  if negb (enabled b) then Some black
  else if is_on b then color_on b else color_off b.

(** LedBlinker.reset *)
Definition blinker_reset (b : LedBlinker) : LedBlinker :=
  with_is_on_elapsed b false F64.zero.

(** The setters used by the per-phase presets of [run]. *)
Definition blinker_set (b : LedBlinker) (con coff : rgb) (ton toff : F64.t)
  : LedBlinker :=
  {| time_off := toff; time_on := ton; color_on := Some con;
     color_off := Some coff; is_on := is_on b; elapsed := elapsed b;
     enabled := true |}.

Definition blinker_disable (b : LedBlinker) : LedBlinker :=
  {| time_off := time_off b; time_on := time_on b; color_on := color_on b;
     color_off := color_off b; is_on := is_on b; elapsed := elapsed b;
     enabled := false |}.

(** [n] successive calls of [animate]: for each call, the returned flag
    and [is_on] afterwards. *)
Fixpoint blinker_trace (n : nat) (b : LedBlinker) : list (bool * bool) * LedBlinker :=
  match n with
  | O => ([], b)
  | S n' =>
      let '(c, b1) := blinker_animate b in
      let '(tr, b2) := blinker_trace n' b1 in
      ((c, is_on b1) :: tr, b2)
  end.

(** The hue update of LedsWS2801.animate_choose:
    [hue_value = hue_value + 0.01; if hue_value > 1.0: hue_value = 0.0] *)
Definition choose_hue_step (h : F64.t) : F64.t :=
  let h' := F64.add h f_0_01 in
  if F64.ltb f_1_0 h' then F64.zero else h'.

Fixpoint hue_iter (n : nat) (h : F64.t) : F64.t :=
  match n with O => h | S n' => hue_iter n' (choose_hue_step h) end.

(** [hue_value] of LedsWS2801.__init__ *)
Definition hue_init : F64.t := F64.zero.

(** ** LedState *)
Inductive LedState :=
| RECONFIGURE | WAIT | WAIT_OR_PRINT | CHOOSE | CHOSEN | PREVIEW
| CAPTURE | PROCESSING | PRINT | FINISH | FAILSAFE | TERMINATE.

Definition LedState_eqb (a b : LedState) : bool :=
  match a, b with
  | RECONFIGURE, RECONFIGURE | WAIT, WAIT | WAIT_OR_PRINT, WAIT_OR_PRINT
  | CHOOSE, CHOOSE | CHOSEN, CHOSEN | PREVIEW, PREVIEW | CAPTURE, CAPTURE
  | PROCESSING, PROCESSING | PRINT, PRINT | FINISH, FINISH
  | FAILSAFE, FAILSAFE | TERMINATE, TERMINATE => true
  | _, _ => false
  end.

(** [actual_state == s] in Python, with [None] for the cleared state. *)
Definition state_is (a : option LedState) (s : LedState) : bool :=
  match a with Some x => LedState_eqb x s | None => false end.

Definition opt_state_eqb (a b : option LedState) : bool :=
  match a, b with
  | Some x, Some y => LedState_eqb x y
  | None, None => true
  | _, _ => false
  end.

(** ** The LedsWS2801 object
    Its fields, shared between the host thread (switchState,
    setConfiguration) and the strip thread (run). *)
Record Strip := mkStrip {
  state_queue : list LedState;  (* Queue(), oldest first *)
  leds : option (list rgb);  (* None, or the WS2801 pixel buffer *)
  spi_index : Z;
  led_count : Z;
  left_btn_led : Z;
  right_btn_led : Z;
  actual_state : option LedState;
  hue_value : F64.t;
  delay : Z;
  left_btn_blinker : LedBlinker;
  right_btn_blinker : LedBlinker;
  capture_nbr : option Z;  (* the attribute LedState.CHOSEN.capture_nbr *)
  ws2801_available : bool;  (* the import of adafruit_ws2801 succeeded *)
  rng : nat -> Z;  (* the output stream of the random module *)
  rng_pos : nat  (* draws consumed so far *)
}.

Definition set_state_queue (s : Strip) (v : list LedState) : Strip :=
  mkStrip v (leds s) (spi_index s) (led_count s) (left_btn_led s) (right_btn_led s) (actual_state s) (hue_value s) (delay s) (left_btn_blinker s) (right_btn_blinker s) (capture_nbr s) (ws2801_available s) (rng s) (rng_pos s).
Definition set_leds (s : Strip) (v : option (list rgb)) : Strip :=
  mkStrip (state_queue s) v (spi_index s) (led_count s) (left_btn_led s) (right_btn_led s) (actual_state s) (hue_value s) (delay s) (left_btn_blinker s) (right_btn_blinker s) (capture_nbr s) (ws2801_available s) (rng s) (rng_pos s).
Definition set_spi_index (s : Strip) (v : Z) : Strip :=
  mkStrip (state_queue s) (leds s) v (led_count s) (left_btn_led s) (right_btn_led s) (actual_state s) (hue_value s) (delay s) (left_btn_blinker s) (right_btn_blinker s) (capture_nbr s) (ws2801_available s) (rng s) (rng_pos s).
Definition set_led_count (s : Strip) (v : Z) : Strip :=
  mkStrip (state_queue s) (leds s) (spi_index s) v (left_btn_led s) (right_btn_led s) (actual_state s) (hue_value s) (delay s) (left_btn_blinker s) (right_btn_blinker s) (capture_nbr s) (ws2801_available s) (rng s) (rng_pos s).
Definition set_left_btn_led (s : Strip) (v : Z) : Strip :=
  mkStrip (state_queue s) (leds s) (spi_index s) (led_count s) v (right_btn_led s) (actual_state s) (hue_value s) (delay s) (left_btn_blinker s) (right_btn_blinker s) (capture_nbr s) (ws2801_available s) (rng s) (rng_pos s).
Definition set_right_btn_led (s : Strip) (v : Z) : Strip :=
  mkStrip (state_queue s) (leds s) (spi_index s) (led_count s) (left_btn_led s) v (actual_state s) (hue_value s) (delay s) (left_btn_blinker s) (right_btn_blinker s) (capture_nbr s) (ws2801_available s) (rng s) (rng_pos s).
Definition set_actual_state (s : Strip) (v : option LedState) : Strip :=
  mkStrip (state_queue s) (leds s) (spi_index s) (led_count s) (left_btn_led s) (right_btn_led s) v (hue_value s) (delay s) (left_btn_blinker s) (right_btn_blinker s) (capture_nbr s) (ws2801_available s) (rng s) (rng_pos s).
Definition set_hue_value (s : Strip) (v : F64.t) : Strip :=
  mkStrip (state_queue s) (leds s) (spi_index s) (led_count s) (left_btn_led s) (right_btn_led s) (actual_state s) v (delay s) (left_btn_blinker s) (right_btn_blinker s) (capture_nbr s) (ws2801_available s) (rng s) (rng_pos s).
Definition set_delay (s : Strip) (v : Z) : Strip :=
  mkStrip (state_queue s) (leds s) (spi_index s) (led_count s) (left_btn_led s) (right_btn_led s) (actual_state s) (hue_value s) v (left_btn_blinker s) (right_btn_blinker s) (capture_nbr s) (ws2801_available s) (rng s) (rng_pos s).
Definition set_left_btn_blinker (s : Strip) (v : LedBlinker) : Strip :=
  mkStrip (state_queue s) (leds s) (spi_index s) (led_count s) (left_btn_led s) (right_btn_led s) (actual_state s) (hue_value s) (delay s) v (right_btn_blinker s) (capture_nbr s) (ws2801_available s) (rng s) (rng_pos s).
Definition set_right_btn_blinker (s : Strip) (v : LedBlinker) : Strip :=
  mkStrip (state_queue s) (leds s) (spi_index s) (led_count s) (left_btn_led s) (right_btn_led s) (actual_state s) (hue_value s) (delay s) (left_btn_blinker s) v (capture_nbr s) (ws2801_available s) (rng s) (rng_pos s).
Definition set_capture_nbr (s : Strip) (v : option Z) : Strip :=
  mkStrip (state_queue s) (leds s) (spi_index s) (led_count s) (left_btn_led s) (right_btn_led s) (actual_state s) (hue_value s) (delay s) (left_btn_blinker s) (right_btn_blinker s) v (ws2801_available s) (rng s) (rng_pos s).
Definition set_ws2801_available (s : Strip) (v : bool) : Strip :=
  mkStrip (state_queue s) (leds s) (spi_index s) (led_count s) (left_btn_led s) (right_btn_led s) (actual_state s) (hue_value s) (delay s) (left_btn_blinker s) (right_btn_blinker s) (capture_nbr s) v (rng s) (rng_pos s).
Definition set_rng (s : Strip) (v : nat -> Z) : Strip :=
  mkStrip (state_queue s) (leds s) (spi_index s) (led_count s) (left_btn_led s) (right_btn_led s) (actual_state s) (hue_value s) (delay s) (left_btn_blinker s) (right_btn_blinker s) (capture_nbr s) (ws2801_available s) v (rng_pos s).
Definition set_rng_pos (s : Strip) (v : nat) : Strip :=
  mkStrip (state_queue s) (leds s) (spi_index s) (led_count s) (left_btn_led s) (right_btn_led s) (actual_state s) (hue_value s) (delay s) (left_btn_blinker s) (right_btn_blinker s) (capture_nbr s) (ws2801_available s) (rng s) v.

(** ** Device operations, state and exceptions
    A computation of the strip thread reads and writes the [Strip] object,
    logs the operations it performs on the WS2801 device, and may raise a
    Python exception (which ends the daemon thread). *)
Inductive DevOp :=
| OpGet (i : Z)              (* self.leds[i] *)
| OpSet (i : Z) (c : rgb)    (* self.leds[i] = c *)
| OpFill (c : rgb)           (* self.leds.fill(c) *)
| OpShow (buf : list rgb).   (* self.leds.show(), with the buffer it sends *)

Inductive res (A : Type) : Type :=
| Ok (a : A) (s : Strip) (tr : list DevOp)
| Err (tr : list DevOp).
Arguments Ok {A} a s tr.
Arguments Err {A} tr.

Definition M (A : Type) : Type := Strip -> res A.

Definition ret {A} (a : A) : M A := fun s => Ok a s [].

Definition bind {A B} (m : M A) (k : A -> M B) : M B :=
  fun s =>
    match m s with
    | Ok a s1 t1 =>
        match k a s1 with
        | Ok b s2 t2 => Ok b s2 (t1 ++ t2)
        | Err t2 => Err (t1 ++ t2)
        end
    | Err t1 => Err t1
    end.

Notation "x <- m ;; k" := (bind m (fun x => k))
  (at level 61, m at next level, right associativity).
Notation "m ;;; k" := (bind m (fun _ => k))
  (at level 61, right associativity).

Definition gets {A} (f : Strip -> A) : M A := fun s => Ok (f s) s [].
Definition modify (f : Strip -> Strip) : M unit := fun s => Ok tt (f s) [].
Definition raise {A} : M A := fun _ => Err [].

Fixpoint mapM_ {A} (f : A -> M unit) (l : list A) : M unit :=
  match l with
  | [] => ret tt
  | x :: l' => f x ;;; mapM_ f l'
  end.

(** Python's [range(a, b, step)] for a positive step. *)
Definition py_range (a b step : Z) : list Z :=
  map (fun k => a + step * Z.of_nat k)
      (seq 0 (Z.to_nat ((b - a + step - 1) / step))).

(** Index normalisation of the WS2801 buffer (as a Python sequence):
    negative indices count from the end, anything else out of range raises
    IndexError. *)
Definition py_index (n i : Z) : option nat :=
  let j := if i <? 0 then i + n else i in
  if (j <? 0) || (n <=? j) then None else Some (Z.to_nat j).

Fixpoint list_set {A} (l : list A) (k : nat) (v : A) : list A :=
  match l, k with
  | [], _ => []
  | _ :: l', O => v :: l'
  | x :: l', S k' => x :: list_set l' k' v
  end.

(** [self.leds[i]]; [self.leds] being None raises TypeError. *)
Definition leds_get (i : Z) : M rgb :=
  fun s =>
    match leds s with
    | None => Err []
    | Some buf =>
        match py_index (Z.of_nat (length buf)) i with
        | None => Err [OpGet i]
        | Some k => Ok (nth k buf black) s [OpGet i]
        end
    end.

(** [self.leds[i] = c]; a value that is not a colour (Python's None)
    raises as well. *)
Definition leds_set (i : Z) (c : option rgb) : M unit :=
  fun s =>
    match leds s, c with
    | Some buf, Some c' =>
        match py_index (Z.of_nat (length buf)) i with
        | None => Err [OpSet i c']
        | Some k => Ok tt (set_leds s (Some (list_set buf k c'))) [OpSet i c']
        end
    | _, _ => Err []
    end.

Definition leds_fill (c : rgb) : M unit :=
  fun s =>
    match leds s with
    | None => Err []
    | Some buf => Ok tt (set_leds s (Some (map (fun _ => c) buf))) [OpFill c]
    end.

Definition leds_show : M unit :=
  fun s =>
    match leds s with
    | None => Err []
    | Some buf => Ok tt s [OpShow buf]
    end.

(** The random module: each call consumes one draw of the stream.
    [random.random()] returns [k * 2^-53] with [0 <= k < 2^53];
    [random.randint(a, b)] returns an int of [a..b]. *)
Definition next_draw : M Z :=
  fun s => Ok (rng s (rng_pos s)) (set_rng_pos s (S (rng_pos s))) [].

Definition random_random : M F64.t :=
  d <- next_draw ;; ret (F64.round (d mod 2 ^ 53) (-53)).

Definition random_randint (a b : Z) : M Z :=
  d <- next_draw ;; ret (a + d mod (b - a + 1)).

(** ** Animations of LedsWS2801 *)

Definition set_delay_m (v : Z) : M unit := modify (fun s => set_delay s v).

(** animate_wait *)
Definition animate_wait (changed : bool) : M bool :=
  (if changed then set_delay_m 0 else ret tt) ;;;
  d <- gets delay ;; set_delay_m (d + 1) ;;;
  d <- gets delay ;;
  if 10 <? d then
    set_delay_m 0 ;;;
    n <- gets led_count ;;
    mapM_ (fun i =>
      h <- random_random ;;
      sat <- random_randint 50 100 ;;
      v <- random_random ;;
      leds_set i (Some (hsv h (F64.of_ratio sat 100) v))) (py_range 0 n 1) ;;;
    ret true
  else ret false.

(** animate_choose *)
Definition animate_choose (changed : bool) : M bool :=
  n <- gets led_count ;;
  mapM_ (fun i =>
    hv <- gets hue_value ;;
    leds_set i (Some (hsv (F64.add hv (F64.of_ratio i n)) f_1_0 f_1_0)))
    (py_range 0 n 1) ;;;
  modify (fun s => set_hue_value s (choose_hue_step (hue_value s))) ;;;
  ret true.

(** animate_chosen: reads the attribute [capture_nbr] set on LedState.CHOSEN
    by the host (AttributeError while it was never set). *)
Definition animate_chosen (changed : bool) : M bool :=
  c <- gets capture_nbr ;;
  match c with
  | None => raise
  | Some k =>
      leds_fill (hsv (F64.add (F64.of_ratio k 4) f_0_5) f_1_0 f_1_0) ;;; ret true
  end.

(** animate_preview *)
Definition animate_preview (changed : bool) : M bool :=
  leds_fill white ;;; ret true.

(** animate_capture *)
Definition animate_capture (changed : bool) : M bool :=
  (if changed then set_delay_m 0 else ret tt) ;;;
  d <- gets delay ;; set_delay_m (d + 1) ;;;
  d <- gets delay ;;
  (if 4 <? d then leds_fill white else leds_fill black) ;;;
  ret true.

(** The rotation shared by animate_processing and animate_print:
    [first = leds[0]; for i in range(0, n-1): leds[i] = leds[i+1];
     leds[-1] = first] *)
Definition rotate_leds (n : Z) : M unit :=
  first <- leds_get 0 ;;
  mapM_ (fun i => c <- leds_get (i + 1) ;; leds_set i (Some c)) (py_range 0 (n - 1) 1) ;;;
  leds_set (-1) (Some first).

Definition red : rgb := (255, 0, 0).
Definition green : rgb := (0, 255, 0).
Definition blue : rgb := (0, 0, 255).

(** animate_processing *)
Definition animate_processing (changed : bool) : M bool :=
  (if changed then
     set_delay_m 0 ;;;
     n <- gets led_count ;;
     mapM_ (fun i =>
       leds_set i (Some red) ;;; leds_set (i + 1) (Some green) ;;;
       leds_set (i + 2) (Some blue)) (py_range 0 (n - 2) 3)
   else ret tt) ;;;
  d <- gets delay ;; set_delay_m (d + 1) ;;;
  d <- gets delay ;;
  if 50 <? d then
    set_delay_m 0 ;;; n <- gets led_count ;; rotate_leds n ;;; ret true
  else ret false.

(** animate_print *)
Definition animate_print (changed : bool) : M bool :=
  (if changed then
     set_delay_m 0 ;;;
     leds_fill black ;;;
     n <- gets led_count ;;
     mapM_ (fun i => leds_set i (Some white)) (py_range 0 n 3)
   else ret tt) ;;;
  d <- gets delay ;; set_delay_m (d + 1) ;;;
  d <- gets delay ;;
  if 20 <? d then
    set_delay_m 0 ;;; n <- gets led_count ;; rotate_leds n ;;; ret true
  else ret false.

Definition gold : rgb := (204, 170, 16).


(** ** One iteration of the tick loop of LedsWS2801.run *)

Inductive tick_result :=
| TickContinue   (* next iteration of the inner loop *)
| TickBreak      (* [break]: back to [configure] *)
| TickReturn.    (* [return]: the thread ends *)

(** [if not self.state_queue.empty(): new_state = self.state_queue.get() ...];
    returns [changed]. *)
Definition dequeue : M bool :=
  q <- gets state_queue ;;
  match q with
  | [] => ret false
  | ns :: rest =>
      modify (fun s => set_state_queue s rest) ;;;
      a <- gets actual_state ;;
      modify (fun s => set_actual_state s (Some ns)) ;;;
      ret (negb (opt_state_eqb a (Some ns)))
  end.

Definition set_left (f : LedBlinker -> LedBlinker) : M unit :=
  modify (fun s => set_left_btn_blinker s (f (left_btn_blinker s))).
Definition set_right (f : LedBlinker -> LedBlinker) : M unit :=
  modify (fun s => set_right_btn_blinker s (f (right_btn_blinker s))).

Definition when (b : bool) (m : M unit) : M unit := if b then m else ret tt.

(** The [elif] chain of the tick, once a device is present: the animation of
    the current state and, on [changed], the blinker presets. *)
Definition render (changed : bool) : M bool :=
  a <- gets actual_state ;;
  match a with
  | Some WAIT | Some WAIT_OR_PRINT =>
      r <- animate_wait changed ;;
      when changed (
        set_left (fun b => blinker_set b white black f_0_5 f_0_5) ;;;
        (if state_is a WAIT_OR_PRINT
         then set_right (fun b => blinker_set b black white f_0_5 f_0_5)
         else set_right blinker_disable)) ;;;
      ret r
  | Some CHOOSE =>
      r <- animate_choose changed ;;
      when changed (
        set_left (fun b => blinker_set b red black f_0_2 f_0_2) ;;;
        set_right (fun b => blinker_set b green black f_0_2 f_0_2)) ;;;
      ret r
  | Some CHOSEN =>
      r <- animate_chosen changed ;;
      when changed (set_left blinker_disable ;;; set_right blinker_disable) ;;;
      ret r
  | Some PREVIEW => animate_preview changed
  | Some CAPTURE => animate_capture changed
  | Some PROCESSING => animate_processing changed
  | Some PRINT =>
      r <- animate_print changed ;;
      when changed (
        set_left (fun b => blinker_set b (0, 170, 85) black f_0_2 f_0_6) ;;;
        set_right (fun b => blinker_set b (0, 255, 188) black f_0_2 f_0_6)) ;;;
      ret r
  | Some FINISH =>
      leds_fill gold ;;;
      when changed (set_left blinker_disable ;;; set_right blinker_disable) ;;;
      ret changed
  | _ => ret false
  end.

(** The overlay of one button:
    [if btn_led > -1: saved = leds[btn_led]; if changed: blinker.reset();
     do_refresh |= blinker.animate(); leds[btn_led] = blinker.get_color()].
    Returns the saved colour (None when skipped) and the blinker's flag. *)
Definition overlay_button (idx : Strip -> Z) (blk : Strip -> LedBlinker)
    (set_blk : (LedBlinker -> LedBlinker) -> M unit) (changed : bool)
  : M (option rgb * bool) :=
  i <- gets idx ;;
  if -1 <? i then
    saved <- leds_get i ;;
    when changed (set_blk blinker_reset) ;;;
    b <- gets blk ;;
    let '(ch, b') := blinker_animate b in
    set_blk (fun _ => b') ;;;
    leds_set i (blinker_get_color b') ;;;
    ret (Some saved, ch)
  else ret (None, false).

(** [if left_led: self.leds[self.left_btn_led] = left_led]; a saved colour
    is a non-empty tuple, hence always true. *)
Definition restore_button (idx : Strip -> Z) (saved : option rgb) : M unit :=
  match saved with
  | Some c => i <- gets idx ;; leds_set i (Some c)
  | None => ret tt
  end.

Definition tick : M tick_result :=
  changed <- dequeue ;;
  a <- gets actual_state ;;
  if state_is a RECONFIGURE then ret TickBreak
  else if state_is a TERMINATE then
    l <- gets leds ;;
    match l with
    | Some (_ :: _) => leds_fill black ;;; leds_show ;;; ret TickReturn
    | _ => ret TickReturn
    end
  else
    l <- gets leds ;;
    match l with
    | None => ret TickContinue          (* "No LED...", sleep(2) *)
    | Some _ =>
        dirty <- render changed ;;
        lo <- overlay_button left_btn_led left_btn_blinker set_left changed ;;
        ro <- overlay_button right_btn_led right_btn_blinker set_right changed ;;
        when (dirty || snd lo || snd ro) leds_show ;;;
        restore_button left_btn_led (fst lo) ;;;
        restore_button right_btn_led (fst ro) ;;;
        ret TickContinue
    end.

(** LedsWS2801.configure *)
Definition configure : M unit :=
  spi <- gets spi_index ;;
  n <- gets led_count ;;
  lib <- gets ws2801_available ;;
  (if (-1 <? spi) && (0 <? n) then
     if negb lib then
       modify (fun s => set_leds (set_spi_index s (-1)) None)
     else if (spi =? 0) || (spi =? 1) then
       modify (fun s => set_leds s (Some (repeat black (Z.to_nat n))))
     else ret tt
   else modify (fun s => set_leds s None)) ;;;
  modify (fun s => set_actual_state s None).

(** ** The strip thread and the host *)

(** Where [run] is: blocked on the first loop waiting for RECONFIGURE, about
    to call [configure], in the tick loop, returned, or ended by an
    exception. *)
Inductive Mode := WaitingConfig | Configuring | Running | Stopped | Crashed.

Record Ctrl := mkCtrl { mode : Mode; strip : Strip }.

(** One step of the strip thread, with the device operations it performs. *)
Definition ctrl_step (c : Ctrl) : Ctrl * list DevOp :=
  let s := strip c in
  match mode c with
  | WaitingConfig =>
      match state_queue s with
      | [] => (c, [])                                   (* blocked in get() *)
      | st :: rest =>
          let s' := set_state_queue s rest in
          if LedState_eqb st RECONFIGURE then (mkCtrl Configuring s', [])
          else (mkCtrl WaitingConfig s', [])
      end
  | Configuring =>
      match configure s with
      | Ok _ s' tr => (mkCtrl Running s', tr)
      | Err tr => (mkCtrl Crashed s, tr)
      end
  | Running =>
      match tick s with
      | Ok TickContinue s' tr => (mkCtrl Running s', tr)
      | Ok TickBreak s' tr => (mkCtrl Configuring s', tr)
      | Ok TickReturn s' tr => (mkCtrl Stopped s', tr)
      | Err tr => (mkCtrl Crashed s, tr)
      end
  | Stopped | Crashed => (c, [])
  end.

(** A configuration snapshot, as read by setConfiguration: [cfg_spi] is
    [None] for "None", else the parsed channel. *)
Record Config := mkConfig {
  cfg_spi : option Z; cfg_led_count : Z; cfg_left_btn_led : Z; cfg_right_btn_led : Z
}.

(** LedsWS2801.switchState *)
Definition switchState (st : LedState) (s : Strip) : Strip :=
  set_state_queue s (state_queue s ++ [st]).

(** LedsWS2801.setConfiguration *)
Definition setConfiguration (cfg : Config) (s : Strip) : Strip :=
  let spi := match cfg_spi cfg with None => -1 | Some k => k end in
  if negb (spi_index s =? spi) || negb (led_count s =? cfg_led_count cfg) ||
     negb (left_btn_led s =? cfg_left_btn_led cfg) ||
     negb (right_btn_led s =? cfg_right_btn_led cfg)
  then switchState RECONFIGURE
         (set_right_btn_led (set_left_btn_led (set_led_count
            (set_spi_index s spi) (cfg_led_count cfg)) (cfg_left_btn_led cfg))
            (cfg_right_btn_led cfg))
  else s.

(** What may happen next: a host call, or a step of the strip thread. *)
Inductive Action :=
| HostSwitch (st : LedState)         (* switchState *)
| HostConfigure (cfg : Config)       (* setConfiguration *)
| HostCaptureNbr (k : Z)             (* state_chosen_enter: LedState.CHOSEN.capture_nbr = k *)
| StripStep.

Definition sys_step (a : Action) (c : Ctrl) : Ctrl * list DevOp :=
  match a with
  | HostSwitch st => (mkCtrl (mode c) (switchState st (strip c)), [])
  | HostConfigure cfg => (mkCtrl (mode c) (setConfiguration cfg (strip c)), [])
  | HostCaptureNbr k => (mkCtrl (mode c) (set_capture_nbr (strip c) (Some k)), [])
  | StripStep => ctrl_step c
  end.

Fixpoint sys_run (acts : list Action) (c : Ctrl) : Ctrl * list DevOp :=
  match acts with
  | [] => (c, [])
  | a :: rest =>
      let '(c1, t1) := sys_step a c in
      let '(c2, t2) := sys_run rest c1 in
      (c2, t1 ++ t2)
  end.

(** LedsWS2801.__init__, with the import result and the random stream. *)
Definition strip_init (lib : bool) (r : nat -> Z) : Strip :=
  mkStrip [] None (-1) (-1) (-1) (-1) None F64.zero 0 blinker_init blinker_init
          None lib r 0.

Definition ctrl_init (lib : bool) (r : nat -> Z) : Ctrl :=
  mkCtrl WaitingConfig (strip_init lib r).

(** The effect of the host calls of [acts] alone on the object: what the
    object becomes when the strip thread takes no step. *)
Fixpoint host_apply (acts : list Action) (s : Strip) : Strip :=
  match acts with
  | [] => s
  | HostSwitch st :: r => host_apply r (switchState st s)
  | HostConfigure cfg :: r => host_apply r (setConfiguration cfg s)
  | HostCaptureNbr k :: r => host_apply r (set_capture_nbr s (Some k))
  | StripStep :: r => host_apply r s
  end.

(** ** Frame relations between two states of the object *)

(** [m] relates every state to the state it leaves on success by [P]. *)
Definition keeps {A} (P : Strip -> Strip -> Prop) (m : M A) : Prop :=
  forall s a s' tr, m s = Ok a s' tr -> P s s'.

Definition led_len (s : Strip) : option nat := option_map (@length rgb) (leds s).

(** What the whole tick after [dequeue] leaves in place. *)
Definition frame_base (s s' : Strip) : Prop :=
  left_btn_led s' = left_btn_led s /\ right_btn_led s' = right_btn_led s /\
  actual_state s' = actual_state s /\ state_queue s' = state_queue s /\
  led_len s' = led_len s.

(** What the animations leave in place, the blinkers too. *)
Definition frame_anim (s s' : Strip) : Prop :=
  frame_base s s' /\ left_btn_blinker s' = left_btn_blinker s /\
  right_btn_blinker s' = right_btn_blinker s.

(** ** Helpers for statements about repeated ticks *)

(** Left rotation of a buffer by one position, and by [k] positions. *)
Definition rotl1 {A} (l : list A) : list A :=
  match l with [] => [] | x :: r => r ++ [x] end.

Definition rotl {A} (k : nat) (l : list A) : list A := Nat.iter k rotl1 l.

(** [n] further ticks in the same state: the animation [m] called with
    [changed = false] each time; the flags it returns, in order. *)
Fixpoint anim_run (m : bool -> M bool) (n : nat) (s : Strip)
  : option (list bool * Strip) :=
  match n with
  | O => Some ([], s)
  | S n' =>
      match m false s with
      | Ok d s1 _ =>
          match anim_run m n' s1 with
          | Some (ds, s2) => Some (d :: ds, s2)
          | None => None
          end
      | Err _ => None
      end
  end.

(** The buffer painted by [animate_processing] on 12 LEDs. *)
Definition processing_tiles : list rgb := concat (repeat [red; green; blue] 4).

(** Every device operation [m] performs on success satisfies [Q]. *)
Definition ops_in {A} (Q : DevOp -> Prop) (m : M A) : Prop :=
  forall s a s' tr, m s = Ok a s' tr -> Forall Q tr.

Definition not_show (op : DevOp) : Prop :=
  match op with OpShow _ => False | _ => True end.

(** The presets of the elif chain never leave the right blinker enabled with
    the left one disabled. *)
Definition left_off_right_off (s : Strip) : Prop :=
  enabled (left_btn_blinker s) = false -> enabled (right_btn_blinker s) = false.

(** ** Auxiliary definitions for the properties *)

Definition blinker_expected (o : bool) (k : nat) : bool * bool :=
  (Nat.eqb (S k mod 50) 0, xorb o (Nat.odd (S k / 50))).

Definition blinker_cycle (o : bool) : list (bool * bool) :=
  map (blinker_expected o) (seq 0 50).

Definition half_second_blinker (b : LedBlinker) : Prop :=
  enabled b = true /\ time_on b = f_0_5 /\ time_off b = f_0_5 /\ elapsed b = F64.zero.

Definition hue_ok (h : F64.t) : bool :=
  F64.leb F64.zero h && F64.ltb h (F64.add f_1_0 f_0_01) &&
  (negb (F64.ltb f_1_0 (F64.add h f_0_01)) ||
   (F64.leb F64.zero (choose_hue_step h) && F64.ltb (choose_hue_step h) f_0_01)).

Definition config_of (s : Strip) : Z * Z * Z * Z :=
  (spi_index s, led_count s, left_btn_led s, right_btn_led s).

Definition cfg_values (cfg : Config) : Z * Z * Z * Z :=
  (match cfg_spi cfg with None => -1 | Some k => k end,
   cfg_led_count cfg, cfg_left_btn_led cfg, cfg_right_btn_led cfg).

(** A state other than RECONFIGURE and TERMINATE. *)
Definition passive_state (st : LedState) : bool :=
  negb (LedState_eqb st RECONFIGURE || LedState_eqb st TERMINATE).

(** Host calls that enqueue only such states (no setConfiguration). *)
Definition passive_action (a : Action) : bool :=
  match a with
  | HostSwitch st => passive_state st
  | HostConfigure _ => false
  | HostCaptureNbr _ => true
  | StripStep => true
  end.

Definition no_device_inv (c : Ctrl) : Prop :=
  Forall (fun st => passive_state st = true) (state_queue (strip c)) /\
  ((mode c = Configuring /\ (led_count (strip c) <= 0 \/ spi_index (strip c) <= -1)) \/
   (mode c = Running /\ leds (strip c) = None /\
    (forall st, actual_state (strip c) = Some st -> passive_state st = true))).

(** The state the tick will act on: the head of the queue, if any. *)
Definition next_state (s : Strip) : option LedState :=
  match state_queue s with [] => actual_state s | p :: _ => Some p end.

(** The on/off pattern of a blinker whose period is [noff + non] ticks. *)
Definition blinker_pattern (non noff : nat) (k : nat) : bool * bool :=
  let t := (S k mod (noff + non))%nat in
  (Nat.eqb t noff || Nat.eqb t 0, Nat.leb noff t).

(** The shape of the strip kept by animate_wait. *)
Definition wait_shape (L : nat) (_ : nat) (s : Strip) : Prop :=
  exists buf, leds s = Some buf /\ length buf = L /\ led_count s = Z.of_nat L.

(** The pattern painted by animate_print: one lit pixel in three. *)
Definition print_tiles (n : nat) : list rgb :=
  map (fun i => if Nat.eqb (i mod 3) 0 then white else black) (seq 0 n).

(** A strip showing [tiles] rotated [r] times to the left. *)
Definition rotating (tiles : list rgb) (r : nat) (s : Strip) : Prop :=
  leds s = Some (rotl r tiles) /\ led_count s = Z.of_nat (length tiles).

(** Counting the flushes ([leds.show()]) of a device trace. *)
Definition is_show (op : DevOp) : bool :=
  match op with OpShow _ => true | _ => false end.

Definition show_count (tr : list DevOp) : nat := length (filter is_show tr).

(** pibooth hook state_wait_enter: [app] is [None] when [app] has no
    [ledstrip] attribute yet (a strip object is then created and its thread
    started); [printer_ready] and [previous_picture] stand for
    [app.printer.is_ready()] and [app.previous_picture]. *)
Definition state_wait_enter (lib : bool) (r : nat -> Z) (cfg : Config)
    (printer_ready previous_picture : bool) (app : option Ctrl) : Ctrl :=
  let c := match app with None => ctrl_init lib r | Some c => c end in
  mkCtrl (mode c)
    (switchState (if printer_ready && previous_picture then WAIT_OR_PRINT else WAIT)
                 (setConfiguration cfg (strip c))).

(** A strip of three pixels, as [configure] leaves it for led_count 3. *)
Definition demo_strip : Strip :=
  set_leds (set_led_count (strip_init true (fun _ => 0)) 3) (Some [red; green; blue]).

(** The same strip with button pixels 0 and 2 and PREVIEW queued. *)
Definition demo_buttons : Strip :=
  set_right_btn_led (set_left_btn_led (switchState PREVIEW demo_strip) 0) 2.

(* ================================================================== *)
(** * Properties *)

(** ** LedBlinker timing *)

Lemma blinker_trace_add (n m : nat) (b : LedBlinker) :
  blinker_trace (n + m) b =
  let '(t1, b1) := blinker_trace n b in
  let '(t2, b2) := blinker_trace m b1 in (t1 ++ t2, b2).
Proof.
  revert b; induction n as [|n IH]; intros b; simpl.
  - destruct (blinker_trace m b); reflexivity.
  - destruct (blinker_animate b) as [c b1].
    rewrite IH. destruct (blinker_trace n b1) as [t1 b2].
    destruct (blinker_trace m b2) as [t2 b3]. reflexivity.
Qed.

Lemma blinker_trace_prefix (n m k : nat) (b : LedBlinker) :
  (k < n)%nat ->
  nth_error (fst (blinker_trace n b)) k = nth_error (fst (blinker_trace (n + m) b)) k.
Proof.
  intros Hk. rewrite blinker_trace_add.
  destruct (blinker_trace n b) as [t1 b1] eqn:E1.
  destruct (blinker_trace m b1) as [t2 b2]. simpl.
  rewrite nth_error_app1; [reflexivity|].
  assert (length (fst (blinker_trace n b)) = n) as Hl.
  { clear. revert b; induction n; intros b; simpl; [reflexivity|].
    destruct (blinker_animate b) as [c b1].
    specialize (IHn b1). destruct (blinker_trace n b1). simpl in *. lia. }
  rewrite E1 in Hl. simpl in Hl. lia.
Qed.

Lemma blinker_one_cycle (b : LedBlinker) :
  half_second_blinker b ->
  blinker_trace 50 b =
    (blinker_cycle (is_on b), with_is_on_elapsed b (negb (is_on b)) F64.zero).
Proof.
  intros (He & Hon & Hoff & Hel).
  destruct b as [toff ton con coff o el en]; simpl in *; subst.
  destruct o; vm_compute; reflexivity.
Qed.

Lemma blinker_trace_add_fst (n m : nat) (b : LedBlinker) :
  fst (blinker_trace (n + m) b) =
  fst (blinker_trace n b) ++ fst (blinker_trace m (snd (blinker_trace n b))).
Proof.
  rewrite blinker_trace_add.
  destruct (blinker_trace n b) as [t1 b1].
  destruct (blinker_trace m b1) as [t2 b2] eqn:E. cbn [fst snd]. rewrite E. reflexivity.
Qed.

Lemma blinker_cycles (q : nat) (b : LedBlinker) (k : nat) :
  half_second_blinker b -> (k < 50 * q)%nat ->
  nth_error (fst (blinker_trace (50 * q) b)) k = Some (blinker_expected (is_on b) k).
Proof.
  revert b k; induction q as [|q IH]; intros b k Hb Hk; [lia|].
  replace (50 * S q)%nat with (50 + 50 * q)%nat by lia.
  rewrite blinker_trace_add_fst, (blinker_one_cycle b Hb).
  cbn [fst snd].
  assert (Hlen : length (blinker_cycle (is_on b)) = 50%nat).
  { unfold blinker_cycle. rewrite length_map, length_seq. reflexivity. }
  destruct (Nat.lt_ge_cases k 50) as [Hlt|Hge].
  - rewrite nth_error_app1 by lia.
    unfold blinker_cycle. rewrite nth_error_map, nth_error_seq.
    destruct (Nat.ltb_spec k 50); [|lia]. reflexivity.
  - rewrite nth_error_app2 by lia. rewrite Hlen.
    assert (Hb2 : half_second_blinker (with_is_on_elapsed b (negb (is_on b)) F64.zero)).
    { destruct Hb as (? & ? & ? & ?). unfold half_second_blinker; simpl; auto. }
    rewrite (IH _ (k - 50)%nat Hb2 ltac:(lia)). cbn [is_on with_is_on_elapsed].
    unfold blinker_expected.
    replace (S k) with (S (k - 50) + 1 * 50)%nat by lia.
    rewrite Nat.Div0.mod_add, Nat.div_add by lia.
    rewrite Nat.add_1_r, Nat.odd_succ, <- Nat.negb_odd.
    destruct (is_on b), (Nat.odd (S (k - 50) / 50)); reflexivity.
Qed.

(** C8: an enabled blinker with [time_on = time_off = 0.5], advanced with
    the tick's 0.01 increments from [elapsed = 0] (its value after a reset
    and after every toggle): the k-th advance (counting from 1) returns
    [True] exactly when k is a multiple of 50, and [is_on] has then toggled
    once per 50 advances; every other advance returns [False] and leaves
    [is_on] as it was. *)
Theorem blinker_toggles_every_50 (b : LedBlinker) (n k : nat) :
  half_second_blinker b -> (k < n)%nat ->
  nth_error (fst (blinker_trace n b)) k =
    Some (Nat.eqb (S k mod 50) 0, xorb (is_on b) (Nat.odd (S k / 50))).
Proof.
  intros Hb Hk.
  rewrite (blinker_trace_prefix n (50 * n - n) k b Hk).
  replace (n + (50 * n - n))%nat with (50 * n)%nat by lia.
  apply (blinker_cycles n b k Hb). lia.
Qed.

Lemma blinker_toggles_every_50_witness :
  half_second_blinker (blinker_set blinker_init white black f_0_5 f_0_5) /\
  (49 < 100)%nat /\
  nth_error (fst (blinker_trace 100 (blinker_set blinker_init white black f_0_5 f_0_5))) 49 =
    Some (true, true).
Proof.
  split; [unfold half_second_blinker; simpl; auto|]. split; [lia|].
  apply (blinker_toggles_every_50 (blinker_set blinker_init white black f_0_5 f_0_5) 100 49).
  - unfold half_second_blinker; simpl; auto.
  - lia.
Defined.

(** ** Hue accumulator of the Choose animation *)

Lemma hue_iter_add (a b : nat) (h : F64.t) :
  hue_iter (a + b) h = hue_iter b (hue_iter a h).
Proof. revert h; induction a as [|a IH]; intros h; simpl; auto. Qed.

Lemma hue_iter_period : hue_iter 100 hue_init = hue_init.
Proof. vm_compute. reflexivity. Qed.

Lemma hue_iter_mod (n : nat) : hue_iter n hue_init = hue_iter (n mod 100) hue_init.
Proof.
  rewrite (Nat.div_mod_eq n 100) at 1. rewrite hue_iter_add.
  f_equal. induction (n / 100)%nat as [|q IH]; [reflexivity|].
  replace (100 * S q)%nat with (100 * q + 100)%nat by lia.
  rewrite hue_iter_add, IH. apply hue_iter_period.
Qed.

Lemma hue_ok_first_100 :
  forallb (fun k => hue_ok (hue_iter k hue_init)) (seq 0 100) = true.
Proof. vm_compute. reflexivity. Qed.

(** C9: along the Choose animation, [hue_value] (0.0 initially, changed
    only by [choose_hue_step], which adds 0.01 and resets to 0.0 past 1.0)
    stays in [0, 1.0 + 0.01) after any number of ticks, and a tick on which
    [hue_value + 0.01] exceeds 1.0 leaves it in [0, 0.01) (at 0.0). *)
Theorem choose_hue_wraps (n : nat) :
  let h := hue_iter n hue_init in
  F64.leb F64.zero h = true /\ F64.ltb h (F64.add f_1_0 f_0_01) = true /\
  (F64.ltb f_1_0 (F64.add h f_0_01) = true ->
   choose_hue_step h = F64.zero /\
   F64.leb F64.zero (choose_hue_step h) = true /\
   F64.ltb (choose_hue_step h) f_0_01 = true).
Proof.
  intros h. unfold h. rewrite hue_iter_mod.
  assert (Hk : hue_ok (hue_iter (n mod 100) hue_init) = true).
  { pose proof hue_ok_first_100 as Hall. rewrite forallb_forall in Hall.
    apply Hall. apply in_seq. pose proof (Nat.mod_upper_bound n 100). lia. }
  generalize dependent (hue_iter (n mod 100) hue_init). intros g Hk.
  unfold hue_ok in Hk.
  apply andb_true_iff in Hk as [Hk H3]. apply andb_true_iff in Hk as [H1 H2].
  split; [exact H1|]. split; [exact H2|]. intros H.
  rewrite H in H3. apply orb_true_iff in H3 as [H3|H3]; [discriminate|].
  apply andb_true_iff in H3 as [H3 H4].
  split; [|split; assumption].
  unfold choose_hue_step. rewrite H. reflexivity.
Qed.

Lemma choose_hue_wraps_witness :
  F64.ltb f_1_0 (F64.add (hue_iter 99 hue_init) f_0_01) = true /\
  choose_hue_step (hue_iter 99 hue_init) = F64.zero.
Proof.
  assert (H : F64.ltb f_1_0 (F64.add (hue_iter 99 hue_init) f_0_01) = true)
    by (vm_compute; reflexivity).
  split; [exact H|].
  exact (proj1 (proj2 (proj2 (choose_hue_wraps 99)) H)).
Defined.

(** ** Configuration gate *)

(** C4: setConfiguration enqueues RECONFIGURE exactly when one of the four
    values (channel, LED count, left and right button LED) differs from the
    stored ones, and then stores the new values; when all four are equal
    the object is left as it was (nothing enqueued, nothing stored). *)
Theorem setConfiguration_gate (cfg : Config) (s : Strip) :
  (config_of s <> cfg_values cfg <->
   state_queue (setConfiguration cfg s) = state_queue s ++ [RECONFIGURE]) /\
  (config_of s <> cfg_values cfg -> config_of (setConfiguration cfg s) = cfg_values cfg) /\
  (config_of s = cfg_values cfg -> setConfiguration cfg s = s).
Proof.
  unfold config_of, cfg_values, setConfiguration.
  set (spi := match cfg_spi cfg with None => -1 | Some k => k end).
  destruct (Z.eqb_spec (spi_index s) spi), (Z.eqb_spec (led_count s) (cfg_led_count cfg)),
    (Z.eqb_spec (left_btn_led s) (cfg_left_btn_led cfg)),
    (Z.eqb_spec (right_btn_led s) (cfg_right_btn_led cfg)); simpl;
  repeat split; intros;
  try (exfalso; congruence);
  try reflexivity;
  try (match goal with
       | Hq : state_queue s = state_queue s ++ _ |- _ =>
           apply (f_equal (@length LedState)) in Hq;
           rewrite length_app in Hq; simpl in Hq; lia
       end);
  try (intros Heq; inversion Heq; congruence).
Qed.

Lemma setConfiguration_gate_witness :
  config_of (strip_init true (fun _ => 0)) <> cfg_values (mkConfig (Some 0) 12 0 1) /\
  state_queue (setConfiguration (mkConfig (Some 0) 12 0 1) (strip_init true (fun _ => 0)))
    = [RECONFIGURE] /\
  setConfiguration (mkConfig None (-1) (-1) (-1)) (strip_init true (fun _ => 0))
    = strip_init true (fun _ => 0).
Proof.
  assert (H1 : config_of (strip_init true (fun _ => 0)) <> cfg_values (mkConfig (Some 0) 12 0 1))
    by (vm_compute; congruence).
  split; [exact H1|]. split.
  - exact (proj1 (proj1 (setConfiguration_gate (mkConfig (Some 0) 12 0 1) _)) H1).
  - apply (proj2 (proj2 (setConfiguration_gate (mkConfig None (-1) (-1) (-1)) _))).
    reflexivity.
Defined.

(** ** Monad facts *)

Lemma bind_ok_inv {A B} (m : M A) (k : A -> M B) s b s2 tr :
  bind m k s = Ok b s2 tr ->
  exists a s1 t1 t2, m s = Ok a s1 t1 /\ k a s1 = Ok b s2 t2 /\ tr = t1 ++ t2.
Proof.
  unfold bind. destruct (m s) as [a s1 t1|t1]; [|discriminate].
  destruct (k a s1) as [b' s2' t2|t2] eqn:E; [|discriminate].
  intros H; inversion H; subst. eauto 8.
Qed.

Lemma bind_ok {A B} (m : M A) (k : A -> M B) s a s1 t1 :
  m s = Ok a s1 t1 -> bind m k s = match k a s1 with
                                    | Ok b s2 t2 => Ok b s2 (t1 ++ t2)
                                    | Err t2 => Err (t1 ++ t2)
                                    end.
Proof. unfold bind. intros ->. reflexivity. Qed.

Lemma bind_err {A B} (m : M A) (k : A -> M B) s t1 :
  m s = Err t1 -> bind m k s = Err t1.
Proof. unfold bind. intros ->. reflexivity. Qed.

(** ** Termination of the strip thread *)

Lemma stopped_run (acts : list Action) (s : Strip) :
  sys_run acts (mkCtrl Stopped s) = (mkCtrl Stopped (host_apply acts s), []).
Proof.
  revert s; induction acts as [|a acts IH]; intros s; [reflexivity|].
  destruct a; simpl; rewrite IH; reflexivity.
Qed.

(** C3: when the running thread dequeues TERMINATE, that tick fills the
    device with (0,0,0) and shows it, once, if a device is present (and does
    nothing on the device otherwise), and the thread stops: whatever the host
    does afterwards (switchState, setConfiguration, ...), no device operation
    is performed and no queued state is taken out of the queue. *)
Theorem terminate_final (c : Ctrl) (rest : list LedState) (acts : list Action) :
  mode c = Running -> state_queue (strip c) = TERMINATE :: rest ->
  let '(c1, tr) := ctrl_step c in
  mode c1 = Stopped /\
  tr = match leds (strip c) with
       | Some (p :: ps) => [OpFill black; OpShow (map (fun _ => black) (p :: ps))]
       | _ => []
       end /\
  sys_run acts c1 = (mkCtrl Stopped (host_apply acts (strip c1)), []).
Proof.
  destruct c as [md s]; simpl. intros -> Hq.
  unfold ctrl_step, tick, dequeue, bind, gets, modify, ret; simpl. rewrite Hq. simpl.
  destruct (leds s) as [[|p ps]|] eqn:El; unfold leds_fill, leds_show; simpl;
  rewrite ?El; simpl; (split; [reflexivity|]); (split; [reflexivity|]);
  apply stopped_run.
Qed.

Lemma terminate_final_witness :
  let c := mkCtrl Running (set_leds (set_state_queue (strip_init true (fun _ => 0))
                             [TERMINATE; WAIT]) (Some [white; white])) in
  mode c = Running /\ state_queue (strip c) = [TERMINATE; WAIT] /\
  snd (ctrl_step c) = [OpFill black; OpShow [black; black]].
Proof.
  intros c. split; [reflexivity|]. split; [reflexivity|].
  pose proof (terminate_final c [WAIT] [] eq_refl eq_refl) as H.
  destruct (ctrl_step c) as [c1 tr]. destruct H as (_ & Htr & _). exact Htr.
Defined.

(** ** No device: degraded mode *)

Lemma configure_no_device (s : Strip) :
  led_count s <= 0 \/ spi_index s <= -1 ->
  configure s = Ok tt (set_actual_state (set_leds s None) None) [].
Proof.
  intros H. unfold configure, bind, gets, modify, ret; simpl.
  replace ((-1 <? spi_index s) && (0 <? led_count s)) with false; [reflexivity|].
  symmetry. apply andb_false_iff.
  destruct H; [right | left]; apply Z.ltb_ge; lia.
Qed.

Lemma tick_no_device (s : Strip) :
  leds s = None ->
  (forall st, actual_state s = Some st -> passive_state st = true) ->
  Forall (fun st => passive_state st = true) (state_queue s) ->
  exists s', tick s = Ok TickContinue s' [] /\ leds s' = None /\
    (forall st, actual_state s' = Some st -> passive_state st = true) /\
    Forall (fun st => passive_state st = true) (state_queue s') /\
    config_of s' = config_of s.
Proof.
  intros Hl Ha Hq.
  unfold tick, dequeue, bind, gets, modify, ret.
  destruct (state_queue s) as [|st rest] eqn:Eq; simpl.
  - destruct (actual_state s) as [a|] eqn:Ea.
    + pose proof (Ha a eq_refl) as Hp. unfold passive_state in Hp.
      unfold state_is.
      destruct (LedState_eqb a RECONFIGURE), (LedState_eqb a TERMINATE); try discriminate.
      simpl. rewrite Hl. eexists; repeat split; eauto; rewrite ?Eq; auto;
        intros st0 H0; rewrite Ea in H0; auto.
    + unfold state_is. simpl. rewrite Hl.
      eexists; repeat split; eauto; rewrite ?Eq; auto;
        intros st0 H0; rewrite Ea in H0; auto.
  - inversion Hq as [|x l Hst Hrest]; subst.
    pose proof Hst as Hp. unfold passive_state in Hp.
    unfold state_is.
    destruct (LedState_eqb st RECONFIGURE), (LedState_eqb st TERMINATE); try discriminate.
    simpl. rewrite Hl. eexists; repeat split; simpl; eauto.
    intros st' H'. inversion H'; subst. exact Hst.
Qed.

Lemma no_device_step (a : Action) (c : Ctrl) :
  passive_action a = true -> no_device_inv c ->
  snd (sys_step a c) = [] /\ no_device_inv (fst (sys_step a c)).
Proof.
  intros Ha [Hq Hm]. destruct c as [md s]; simpl in *.
  destruct a as [st|cfg|k|]; simpl in Ha |- *; try discriminate.
  - split; [reflexivity|]. split; simpl.
    + unfold switchState; simpl. apply Forall_app; split; auto.
    + exact Hm.
  - split; [reflexivity|]. split; simpl; [exact Hq|exact Hm].
  - destruct Hm as [[-> Hcfg] | (-> & Hl & Hact)].
    + unfold ctrl_step; simpl. rewrite (configure_no_device s Hcfg). simpl.
      split; [reflexivity|]. split; [exact Hq|]. right. simpl.
      split; [reflexivity|]. split; [reflexivity|]. discriminate.
    + destruct (tick_no_device s Hl Hact Hq) as (s' & Ht & Hl' & Ha' & Hq' & _).
      unfold ctrl_step; simpl. rewrite Ht. simpl.
      split; [reflexivity|]. split; [exact Hq'|]. right. simpl. auto.
Qed.

(** C7: with no device configured (LED count <= 0, e.g. 0, or channel
    "None", i.e. -1), [configure] leaves [self.leds] at None; from then on,
    as long as only states other than RECONFIGURE and TERMINATE are queued,
    the strip thread performs no device operation at all: no pixel read or
    write, no fill, no show. *)
Theorem degraded_mode_no_device_ops (c : Ctrl) (acts : list Action) :
  mode c = Configuring ->
  led_count (strip c) <= 0 \/ spi_index (strip c) <= -1 ->
  Forall (fun st => passive_state st = true) (state_queue (strip c)) ->
  forallb passive_action acts = true ->
  leds (strip (fst (ctrl_step c))) = None /\
  snd (ctrl_step c) = [] /\
  snd (sys_run acts (fst (ctrl_step c))) = [].
Proof.
  intros Hm Hcfg Hq Hacts.
  assert (Hinv : no_device_inv c) by (split; [exact Hq | left; auto]).
  pose proof (no_device_step StripStep c eq_refl Hinv) as [Htr Hinv1].
  simpl in Htr, Hinv1.
  split.
  - destruct c as [md s]; simpl in *; subst.
    unfold ctrl_step; simpl. rewrite (configure_no_device s Hcfg). reflexivity.
  - split; [exact Htr|].
    generalize dependent (fst (ctrl_step c)). clear Htr Hinv.
    induction acts as [|a acts IH]; intros c1 Hinv1; [reflexivity|].
    simpl in Hacts. apply andb_prop in Hacts as [Ha Hacts].
    simpl. pose proof (no_device_step a c1 Ha Hinv1) as [Ht1 Hi2].
    destruct (sys_step a c1) as [c2 t1] eqn:E. simpl in *.
    specialize (IH Hacts c2 Hi2).
    destruct (sys_run acts c2) as [c3 t2]. simpl in *. subst. reflexivity.
Qed.

Lemma degraded_mode_no_device_ops_witness :
  let c := mkCtrl Configuring (set_state_queue (strip_init true (fun _ => 0)) [WAIT]) in
  snd (sys_run [HostSwitch CHOOSE; StripStep; StripStep; HostSwitch PREVIEW; StripStep]
        (fst (ctrl_step c))) = [].
Proof.
  intros c.
  refine (proj2 (proj2 (degraded_mode_no_device_ops c
    [HostSwitch CHOOSE; StripStep; StripStep; HostSwitch PREVIEW; StripStep]
    eq_refl _ _ eq_refl))).
  - right. simpl. lia.
  - repeat constructor.
Defined.

(** ** Frame lemmas *)

Section Keeps.
Variable P : Strip -> Strip -> Prop.
Hypothesis P_refl : forall s, P s s.
Hypothesis P_trans : forall s1 s2 s3, P s1 s2 -> P s2 s3 -> P s1 s3.
Hypothesis P_leds : forall s l l',
  leds s = Some l -> length l' = length l -> P s (set_leds s (Some l')).
Hypothesis P_delay : forall s v, P s (set_delay s v).
Hypothesis P_hue : forall s v, P s (set_hue_value s v).
Hypothesis P_rng : forall s v, P s (set_rng_pos s v).

Lemma keeps_ret {A} (a : A) : keeps P (ret a).
Proof. intros s b s' tr H. inversion H; subst. apply P_refl. Qed.

Lemma keeps_gets {A} (f : Strip -> A) : keeps P (gets f).
Proof. intros s b s' tr H. inversion H; subst. apply P_refl. Qed.

Lemma keeps_raise {A} : keeps P (@raise A).
Proof. intros s b s' tr H. discriminate. Qed.

Lemma keeps_bind {A B} (m : M A) (k : A -> M B) :
  keeps P m -> (forall a, keeps P (k a)) -> keeps P (bind m k).
Proof.
  intros Hm Hk s b s2 tr H.
  destruct (bind_ok_inv m k s b s2 tr H) as (a & s1 & t1 & t2 & H1 & H2 & _).
  eapply P_trans; [eapply Hm; eexact H1 | eapply Hk; exact H2].
Qed.

Lemma keeps_mapM_ {A} (f : A -> M unit) (l : list A) :
  (forall x, keeps P (f x)) -> keeps P (mapM_ f l).
Proof.
  intros Hf. induction l as [|x l IH]; simpl.
  - apply keeps_ret.
  - apply keeps_bind; auto.
Qed.

Lemma keeps_leds_get i : keeps P (leds_get i).
Proof.
  intros s a s' tr H. unfold leds_get in H.
  destruct (leds s); [|discriminate].
  destruct (py_index _ i); inversion H; subst. apply P_refl.
Qed.

Lemma length_list_set {A} (l : list A) k v : length (list_set l k v) = length l.
Proof. revert k; induction l as [|x l IH]; intros [|k]; simpl; auto. Qed.

Lemma keeps_leds_set i c : keeps P (leds_set i c).
Proof.
  intros s a s' tr H. unfold leds_set in H.
  destruct (leds s) as [l|] eqn:E; [|discriminate]. destruct c as [c|]; [|discriminate].
  destruct (py_index _ i); inversion H; subst.
  apply (P_leds s l); [exact E | apply length_list_set].
Qed.

Lemma keeps_leds_fill c : keeps P (leds_fill c).
Proof.
  intros s a s' tr H. unfold leds_fill in H.
  destruct (leds s) as [l|] eqn:E; inversion H; subst.
  apply (P_leds s l); [exact E | apply length_map].
Qed.

Lemma keeps_leds_show : keeps P leds_show.
Proof.
  intros s a s' tr H. unfold leds_show in H.
  destruct (leds s); inversion H; subst. apply P_refl.
Qed.

Lemma keeps_set_delay_m v : keeps P (set_delay_m v).
Proof. intros s a s' tr H. inversion H; subst. apply P_delay. Qed.

Lemma keeps_hue_step :
  keeps P (modify (fun s => set_hue_value s (choose_hue_step (hue_value s)))).
Proof. intros s a s' tr H. inversion H; subst. apply P_hue. Qed.

Lemma keeps_next_draw : keeps P next_draw.
Proof. intros s a s' tr H. inversion H; subst. apply P_rng. Qed.

Ltac keeps_step :=
  match goal with
  | |- keeps P (bind _ _) => apply keeps_bind; [|intro]
  | |- keeps P (ret _) => apply keeps_ret
  | |- keeps P (gets _) => apply keeps_gets
  | |- keeps P raise => apply keeps_raise
  | |- keeps P (mapM_ _ _) => apply keeps_mapM_; intro
  | |- keeps P (leds_get _) => apply keeps_leds_get
  | |- keeps P (leds_set _ _) => apply keeps_leds_set
  | |- keeps P (leds_fill _) => apply keeps_leds_fill
  | |- keeps P leds_show => apply keeps_leds_show
  | |- keeps P (set_delay_m _) => apply keeps_set_delay_m
  | |- keeps P (modify (fun s => set_hue_value s _)) => apply keeps_hue_step
  | |- keeps P next_draw => apply keeps_next_draw
  | |- keeps P random_random => unfold random_random
  | |- keeps P (random_randint _ _) => unfold random_randint
  | |- keeps P (rotate_leds _) => unfold rotate_leds
  | |- keeps P (if ?b then _ else _) => destruct b
  | |- keeps P (match ?x with _ => _ end) => destruct x
  end.

Lemma keeps_animations (changed : bool) :
  keeps P (animate_wait changed) /\ keeps P (animate_choose changed) /\
  keeps P (animate_chosen changed) /\ keeps P (animate_preview changed) /\
  keeps P (animate_capture changed) /\ keeps P (animate_processing changed) /\
  keeps P (animate_print changed).
Proof.
  unfold animate_wait, animate_choose, animate_chosen, animate_preview,
    animate_capture, animate_processing, animate_print.
  repeat split; repeat keeps_step.
Qed.

End Keeps.

Lemma frame_base_refl s : frame_base s s.
Proof. repeat split. Qed.

Lemma frame_base_trans s1 s2 s3 : frame_base s1 s2 -> frame_base s2 s3 -> frame_base s1 s3.
Proof. unfold frame_base. intros (?&?&?&?&?) (?&?&?&?&?). repeat split; congruence. Qed.

Lemma frame_base_leds s l l' :
  leds s = Some l -> length l' = length l -> frame_base s (set_leds s (Some l')).
Proof. intros E Hl. unfold frame_base, led_len. simpl. rewrite E. simpl. rewrite Hl. auto. Qed.

Lemma frame_anim_refl s : frame_anim s s.
Proof. split; [apply frame_base_refl|auto]. Qed.

Lemma frame_anim_trans s1 s2 s3 : frame_anim s1 s2 -> frame_anim s2 s3 -> frame_anim s1 s3.
Proof.
  intros (H1 & ? & ?) (H2 & ? & ?). split; [eapply frame_base_trans; eauto|split; congruence].
Qed.

Lemma frame_anim_leds s l l' :
  leds s = Some l -> length l' = length l -> frame_anim s (set_leds s (Some l')).
Proof. intros E Hl. split; [apply (frame_base_leds s l l' E Hl)|auto]. Qed.

Lemma keeps_animations_anim changed :
  keeps frame_anim (animate_wait changed) /\ keeps frame_anim (animate_choose changed) /\
  keeps frame_anim (animate_chosen changed) /\ keeps frame_anim (animate_preview changed) /\
  keeps frame_anim (animate_capture changed) /\ keeps frame_anim (animate_processing changed) /\
  keeps frame_anim (animate_print changed).
Proof.
  apply keeps_animations.
  - apply frame_anim_refl.
  - apply frame_anim_trans.
  - apply frame_anim_leds.
  - intros; unfold frame_anim, frame_base, led_len; simpl; repeat split.
  - intros; unfold frame_anim, frame_base, led_len; simpl; repeat split.
  - intros; unfold frame_anim, frame_base, led_len; simpl; repeat split.
Qed.

Lemma keeps_animations_base changed :
  keeps frame_base (animate_wait changed) /\ keeps frame_base (animate_choose changed) /\
  keeps frame_base (animate_chosen changed) /\ keeps frame_base (animate_preview changed) /\
  keeps frame_base (animate_capture changed) /\ keeps frame_base (animate_processing changed) /\
  keeps frame_base (animate_print changed).
Proof.
  apply keeps_animations.
  - apply frame_base_refl.
  - apply frame_base_trans.
  - apply frame_base_leds.
  - intros; unfold frame_anim, frame_base, led_len; simpl; repeat split.
  - intros; unfold frame_anim, frame_base, led_len; simpl; repeat split.
  - intros; unfold frame_anim, frame_base, led_len; simpl; repeat split.
Qed.

(** Without a change of state the animations dispatched by the tick leave
    the blinkers alone: no preset is applied. *)
Lemma render_unchanged_frame : keeps frame_anim (render false).
Proof.
  pose proof (keeps_animations_anim false) as (Hw & Hc & Hch & Hp & Hca & Hpr & Hpt).
  intros s a s' tr H. unfold render in H.
  apply bind_ok_inv in H as (x & s1 & t1 & t2 & H1 & H2 & _).
  inversion H1; subst. clear H1.
  destruct (actual_state s1) as [[]|]; simpl in H2;
  repeat match type of H2 with
  | bind _ _ _ = Ok _ _ _ =>
      let a0 := fresh "a" in let s0 := fresh "s" in let u1 := fresh "u" in
      let u2 := fresh "u" in let E1 := fresh "E" in
      apply bind_ok_inv in H2 as (a0 & s0 & u1 & u2 & E1 & H2 & _)
  end;
  repeat match goal with
  | E : ret _ _ = Ok _ _ _ |- _ => inversion E; subst; clear E
  | E : animate_wait _ _ = Ok _ _ _ |- _ => apply Hw in E
  | E : animate_choose _ _ = Ok _ _ _ |- _ => apply Hc in E
  | E : animate_chosen _ _ = Ok _ _ _ |- _ => apply Hch in E
  | E : animate_preview _ _ = Ok _ _ _ |- _ => apply Hp in E
  | E : animate_capture _ _ = Ok _ _ _ |- _ => apply Hca in E
  | E : animate_processing _ _ = Ok _ _ _ |- _ => apply Hpr in E
  | E : animate_print _ _ = Ok _ _ _ |- _ => apply Hpt in E
  | E : leds_fill _ _ = Ok _ _ _ |- _ =>
      apply (keeps_leds_fill frame_anim frame_anim_leds) in E
  | E : when false _ _ = Ok _ _ _ |- _ => simpl in E; inversion E; subst; clear E
  end;
  repeat match goal with H : frame_anim _ _ |- _ => revert H end;
  intros; eauto using frame_anim_refl, frame_anim_trans.
Qed.

Lemma leds_get_ok i s c s' tr : leds_get i s = Ok c s' tr -> s' = s.
Proof.
  unfold leds_get. destruct (leds s); [|discriminate].
  destruct (py_index _ i); intros H; inversion H; auto.
Qed.

Ltac decomp :=
  repeat match goal with
  | H : bind _ _ _ = Ok _ _ _ |- _ =>
      let a := fresh "a" in let s1 := fresh "s" in let t1 := fresh "t" in
      let t2 := fresh "t" in let E1 := fresh "E" in let E2 := fresh "E" in
      let Etr := fresh "Etr" in
      apply bind_ok_inv in H as (a & s1 & t1 & t2 & E1 & E2 & Etr); cbv beta in E2
  | H : gets _ _ = Ok _ _ _ |- _ => inversion H; subst; clear H
  | H : ret _ _ = Ok _ _ _ |- _ => inversion H; subst; clear H
  | H : modify _ _ = Ok _ _ _ |- _ => inversion H; subst; clear H
  | H : when _ _ _ = Ok _ _ _ |- _ => unfold when in H
  | H : set_left _ _ = Ok _ _ _ |- _ => unfold set_left in H
  | H : set_right _ _ = Ok _ _ _ |- _ => unfold set_right in H
  | H : leds_get _ _ = Ok _ _ _ |- _ => apply leds_get_ok in H; subst
  | H : leds_set _ _ _ = Ok _ _ _ |- _ =>
      apply (keeps_leds_set frame_anim frame_anim_leds) in H
  | H : (if ?b then _ else _) _ = Ok _ _ _ |- _ => destruct b eqn:?
  | H : (match ?x with _ => _ end) _ = Ok _ _ _ |- _ => destruct x eqn:?
  end.

(** The effect of the overlay of the left button on the object. *)
Lemma overlay_left_effect changed s x s' tr :
  overlay_button left_btn_led left_btn_blinker set_left changed s = Ok x s' tr ->
  frame_base s s' /\ right_btn_blinker s' = right_btn_blinker s /\
  left_btn_blinker s' =
    (if -1 <? left_btn_led s
     then snd (blinker_animate (if changed then blinker_reset (left_btn_blinker s)
                                else left_btn_blinker s))
     else left_btn_blinker s).
Proof.
  unfold overlay_button. intros H. decomp;
  repeat match goal with E : frame_anim _ _ |- _ => destruct E as ((?&?&?&?&?)&?&?) end;
  unfold frame_base, led_len in *; simpl in *;
  repeat match goal with
  | E : blinker_animate _ = _ |- _ => rewrite E; clear E
  | E : (-1 <? _) = _ |- _ => rewrite E; clear E
  end; simpl; repeat split; congruence.
Qed.

(** The effect of the overlay of the right button on the object. *)
Lemma overlay_right_effect changed s x s' tr :
  overlay_button right_btn_led right_btn_blinker set_right changed s = Ok x s' tr ->
  frame_base s s' /\ left_btn_blinker s' = left_btn_blinker s /\
  right_btn_blinker s' =
    (if -1 <? right_btn_led s
     then snd (blinker_animate (if changed then blinker_reset (right_btn_blinker s)
                                else right_btn_blinker s))
     else right_btn_blinker s).
Proof.
  unfold overlay_button. intros H. decomp;
  repeat match goal with E : frame_anim _ _ |- _ => destruct E as ((?&?&?&?&?)&?&?) end;
  unfold frame_base, led_len in *; simpl in *;
  repeat match goal with
  | E : blinker_animate _ = _ |- _ => rewrite E; clear E
  | E : (-1 <? _) = _ |- _ => rewrite E; clear E
  end; simpl; repeat split; congruence.
Qed.

Lemma render_frame_base changed : keeps frame_base (render changed).
Proof.
  pose proof (keeps_animations_base changed) as (Hw & Hc & Hch & Hp & Hca & Hpr & Hpt).
  intros s a s' tr H. unfold render in H. decomp;
  repeat match goal with
  | E : animate_wait _ _ = Ok _ _ _ |- _ => apply Hw in E
  | E : animate_choose _ _ = Ok _ _ _ |- _ => apply Hc in E
  | E : animate_chosen _ _ = Ok _ _ _ |- _ => apply Hch in E
  | E : animate_preview _ _ = Ok _ _ _ |- _ => apply Hp in E
  | E : animate_capture _ _ = Ok _ _ _ |- _ => apply Hca in E
  | E : animate_processing _ _ = Ok _ _ _ |- _ => apply Hpr in E
  | E : animate_print _ _ = Ok _ _ _ |- _ => apply Hpt in E
  | E : leds_fill _ _ = Ok _ _ _ |- _ =>
      apply (keeps_leds_fill frame_base frame_base_leds) in E
  end;
  repeat match goal with E : frame_base _ _ |- _ => destruct E as (?&?&?&?&?) end;
  unfold frame_base, led_len in *; simpl in *; repeat split; congruence.
Qed.

Lemma restore_frame idx c : keeps frame_anim (restore_button idx c).
Proof.
  intros s a s' tr H. unfold restore_button in H. decomp; auto using frame_anim_refl.
Qed.

(** The tick, seen from the states and the blinkers. *)
Lemma tick_effect s r s' tr :
  tick s = Ok r s' tr ->
  exists changed s1, dequeue s = Ok changed s1 [] /\
    actual_state s' = actual_state s1 /\
    (changed = false ->
     (left_btn_blinker s' = left_btn_blinker s1 \/
      left_btn_blinker s' = snd (blinker_animate (left_btn_blinker s1))) /\
     (right_btn_blinker s' = right_btn_blinker s1 \/
      right_btn_blinker s' = snd (blinker_animate (right_btn_blinker s1)))).
Proof.
  intros H. unfold tick in H.
  apply bind_ok_inv in H as (changed & s1 & t1 & t2 & Hd & H & Etr).
  assert (Ht1 : t1 = []).
  { unfold dequeue, bind, gets, modify, ret in Hd. simpl in Hd.
    destruct (state_queue s); inversion Hd; reflexivity. }
  subst t1. exists changed, s1. split; [exact Hd|]. clear Hd.
  decomp;
  repeat match goal with
  | E : render ?c _ = Ok _ _ _ |- _ =>
      destruct c; [apply render_frame_base in E | apply render_unchanged_frame in E]
  | E : overlay_button left_btn_led _ _ _ _ = Ok _ _ _ |- _ => apply overlay_left_effect in E
  | E : overlay_button right_btn_led _ _ _ _ = Ok _ _ _ |- _ => apply overlay_right_effect in E
  | E : restore_button _ _ _ = Ok _ _ _ |- _ => apply restore_frame in E
  | E : leds_fill _ _ = Ok _ _ _ |- _ =>
      apply (keeps_leds_fill frame_anim frame_anim_leds) in E
  | E : leds_show _ = Ok _ _ _ |- _ => apply (keeps_leds_show frame_anim frame_anim_refl) in E
  end;
  repeat match goal with
  | E : frame_anim _ _ |- _ => destruct E as (E & ? & ?)
  | E : frame_base _ _ |- _ => destruct E as (?&?&?&?&?)
  | E : _ /\ _ |- _ => destruct E
  end;
  (split; [congruence|]); intros Hc; try discriminate; subst;
  repeat match goal with E : context [if ?b then _ else _] |- _ => destruct b end;
  simpl in *;
  split; first [left; congruence | right; congruence].
Qed.

Lemma dequeue_cons s p rest :
  state_queue s = p :: rest ->
  dequeue s = Ok (negb (opt_state_eqb (actual_state s) (Some p)))
                 (set_actual_state (set_state_queue s rest) (Some p)) [].
Proof. intros Hq. unfold dequeue, bind, gets, modify, ret. simpl. rewrite Hq. reflexivity. Qed.

Lemma dequeue_nil s : state_queue s = [] -> dequeue s = Ok false s [].
Proof. intros Hq. unfold dequeue, bind, gets, modify, ret. simpl. rewrite Hq. reflexivity. Qed.

Lemma LedState_eqb_refl p : LedState_eqb p p = true.
Proof. destruct p; reflexivity. Qed.

(** C5 (amended): a tick that dequeues a state leaves it as the current
    state, and ticks with an empty queue keep it; so when the same state [p]
    is dequeued again while it is still current, that dequeue yields
    [changed = false], overwrites the current state with [p], and on that
    tick neither blinker is reset nor given a preset: each is left as it was
    or advanced once by [animate]. (After RECONFIGURE the tick loop is left
    and [configure] clears the current state, see
    [repeated_reconfigure_changed].) *)
Theorem repeated_state_not_changed (p : LedState) :
  (forall s rest r s' tr,
     state_queue s = p :: rest -> tick s = Ok r s' tr -> actual_state s' = Some p) /\
  (forall s r s' tr,
     state_queue s = [] -> tick s = Ok r s' tr -> actual_state s' = actual_state s) /\
  (forall s rest, actual_state s = Some p -> state_queue s = p :: rest ->
     dequeue s = Ok false (set_actual_state (set_state_queue s rest) (Some p)) [] /\
     forall r s' tr, tick s = Ok r s' tr ->
       actual_state s' = Some p /\
       (left_btn_blinker s' = left_btn_blinker s \/
        left_btn_blinker s' = snd (blinker_animate (left_btn_blinker s))) /\
       (right_btn_blinker s' = right_btn_blinker s \/
        right_btn_blinker s' = snd (blinker_animate (right_btn_blinker s)))).
Proof.
  split; [|split].
  - intros s rest r s' tr Hq Ht.
    destruct (tick_effect s r s' tr Ht) as (c & s1 & Hd & Ha & _).
    rewrite (dequeue_cons s p rest Hq) in Hd. inversion Hd; subst. exact Ha.
  - intros s r s' tr Hq Ht.
    destruct (tick_effect s r s' tr Ht) as (c & s1 & Hd & Ha & _).
    rewrite (dequeue_nil s Hq) in Hd. inversion Hd; subst. exact Ha.
  - intros s rest Ha Hq.
    assert (Hd : dequeue s = Ok false (set_actual_state (set_state_queue s rest) (Some p)) []).
    { rewrite (dequeue_cons s p rest Hq), Ha. simpl. rewrite LedState_eqb_refl. reflexivity. }
    split; [exact Hd|].
    intros r s' tr Ht.
    destruct (tick_effect s r s' tr Ht) as (c & s1 & Hd' & Ha' & Hb).
    rewrite Hd in Hd'. inversion Hd'; subst.
    destruct (Hb eq_refl) as [Hl Hr]. simpl in *. auto.
Qed.

Lemma repeated_state_not_changed_witness :
  let s := set_actual_state (set_state_queue (strip_init true (fun _ => 0)) [CHOOSE]) (Some CHOOSE) in
  actual_state s = Some CHOOSE /\ state_queue s = [CHOOSE] /\
  dequeue s = Ok false (set_actual_state (set_state_queue s []) (Some CHOOSE)) [].
Proof.
  intros s. split; [reflexivity|]. split; [reflexivity|].
  exact (proj1 (proj2 (proj2 (repeated_state_not_changed CHOOSE)) s [] eq_refl eq_refl)).
Defined.

(** C5 as stated fails for RECONFIGURE: with the queue holding RECONFIGURE
    twice, the first tick dequeues it and leaves the loop, [configure] clears
    the current state to None, and the next tick's dequeue of RECONFIGURE
    yields [changed = true]. *)
Lemma repeated_reconfigure_changed :
  let c0 := fst (sys_run [HostConfigure (mkConfig (Some 0) 3 (-1) (-1)); StripStep; StripStep;
                          HostSwitch RECONFIGURE; HostSwitch RECONFIGURE]
                         (ctrl_init true (fun _ => 0))) in
  let c1 := fst (ctrl_step c0) in
  let c2 := fst (ctrl_step c1) in
  mode c0 = Running /\ state_queue (strip c0) = [RECONFIGURE; RECONFIGURE] /\
  (* first dequeue: RECONFIGURE, then [break] *)
  match dequeue (strip c0) with Ok ch _ _ => ch = true | Err _ => False end /\
  mode c1 = Configuring /\ actual_state (strip c1) = Some RECONFIGURE /\
  (* configure() clears the current state *)
  mode c2 = Running /\ actual_state (strip c2) = None /\
  state_queue (strip c2) = [RECONFIGURE] /\
  (* second, consecutive dequeue of RECONFIGURE: changed = true *)
  match dequeue (strip c2) with
  | Ok ch s3 _ => ch = true /\ actual_state s3 = Some RECONFIGURE
  | Err _ => False
  end.
Proof. vm_compute. repeat split. Qed.

(** ** Button indices *)

Lemma overlay_out_of_range idx blk set_blk changed s buf :
  leds s = Some buf -> Z.of_nat (length buf) <= idx s ->
  exists tr, overlay_button idx blk set_blk changed s = Err tr.
Proof.
  intros Hl Hi. unfold overlay_button, bind, gets. simpl.
  replace (-1 <? idx s) with true by (symmetry; apply Z.ltb_lt; lia).
  unfold leds_get. rewrite Hl. unfold py_index.
  replace (idx s <? 0) with false by (symmetry; apply Z.ltb_ge; lia).
  replace ((idx s <? 0) || (Z.of_nat (length buf) <=? idx s)) with true
    by (symmetry; apply orb_true_iff; right; apply Z.leb_le; lia).
  simpl. replace (Z.of_nat (length buf) <=? idx s) with true
    by (symmetry; apply Z.leb_le; lia).
  eauto.
Qed.

Lemma overlay_skipped idx blk set_blk changed s :
  idx s <= -1 -> overlay_button idx blk set_blk changed s = Ok (None, false) s [].
Proof.
  intros Hi. unfold overlay_button, bind, gets, ret. simpl.
  replace (-1 <? idx s) with false by (symmetry; apply Z.ltb_ge; lia). reflexivity.
Qed.

Lemma frame_base_leds_inv s s' buf :
  frame_base s s' -> leds s = Some buf ->
  exists buf', leds s' = Some buf' /\ length buf' = length buf /\
    left_btn_led s' = left_btn_led s /\ right_btn_led s' = right_btn_led s.
Proof.
  intros (Hl & Hr & _ & _ & Hn) Hb. unfold led_len in Hn. rewrite Hb in Hn.
  destruct (leds s') as [b'|]; simpl in Hn; inversion Hn; eauto.
Qed.

(** C1 (amended): only a button index <= -1 is treated as "none"
    ([overlay_skipped]); an index that is not below 0 is used unchecked, and
    when it is >= the number of LEDs of the device, every tick that reaches
    the button overlay (a device is present and the state is neither
    RECONFIGURE nor TERMINATE) raises: reading [self.leds[index]] fails with
    IndexError, so the tick does not complete and the strip thread ends. *)
Theorem button_index_unchecked (s : Strip) (buf : list rgb) :
  leds s = Some buf ->
  state_is (next_state s) RECONFIGURE = false ->
  state_is (next_state s) TERMINATE = false ->
  Z.of_nat (length buf) <= left_btn_led s \/ Z.of_nat (length buf) <= right_btn_led s ->
  exists tr, tick s = Err tr.
Proof.
  intros Hl HR HT Hidx.
  destruct (tick s) as [r s' tr|tr] eqn:E; [exfalso|eauto].
  unfold tick in E.
  apply bind_ok_inv in E as (ch & s1 & t1 & t2 & Hd & E & _).
  assert (Hs1 : leds s1 = leds s /\ left_btn_led s1 = left_btn_led s /\
                right_btn_led s1 = right_btn_led s /\ actual_state s1 = next_state s).
  { unfold dequeue, bind, gets, modify, ret, next_state in *. simpl in Hd.
    destruct (state_queue s); inversion Hd; subst; simpl; auto. }
  destruct Hs1 as (Hl1 & Hli & Hri & Ha1).
  apply bind_ok_inv in E as (a & s2 & t3 & t4 & Eg & E & _).
  unfold gets in Eg. inversion Eg; subst a s2; clear Eg.
  rewrite Ha1, HR, HT in E.
  apply bind_ok_inv in E as (l & s2 & t5 & t6 & Eg & E & _).
  unfold gets in Eg. inversion Eg; subst l s2; clear Eg.
  rewrite Hl1, Hl in E.
  apply bind_ok_inv in E as (d & s3 & t7 & t8 & Er & E & _).
  apply render_frame_base in Er.
  destruct (frame_base_leds_inv _ _ _ Er (eq_trans Hl1 Hl))
    as (b3 & Hb3 & Hlen3 & Hli3 & Hri3).
  apply bind_ok_inv in E as (lo & s4 & t9 & t10 & Eo & E & _).
  destruct (Z.le_gt_cases (Z.of_nat (length buf)) (left_btn_led s)) as [Hle|Hgt].
  - destruct (overlay_out_of_range left_btn_led left_btn_blinker set_left ch s3 b3 Hb3)
      as (tr' & Hx); [rewrite Hlen3, Hli3, Hli; lia|congruence].
  - pose proof (overlay_left_effect _ _ _ _ _ Eo) as (Hf4 & _).
    destruct (frame_base_leds_inv _ _ _ Hf4 Hb3) as (b4 & Hb4 & Hlen4 & Hli4 & Hri4).
    apply bind_ok_inv in E as (ro & s5 & t11 & t12 & Eo2 & E & _).
    destruct (overlay_out_of_range right_btn_led right_btn_blinker set_right ch s4 b4 Hb4)
      as (tr' & Hx); [rewrite Hlen4, Hlen3, Hri4, Hri3, Hri; lia|congruence].
Qed.

Lemma button_index_unchecked_witness :
  exists tr, tick (set_state_queue (set_left_btn_led
                (set_leds (strip_init true (fun _ => 0)) (Some [black; black; black])) 5)
                [PREVIEW]) = Err tr.
Proof.
  apply (button_index_unchecked _ [black; black; black]);
    [reflexivity | reflexivity | reflexivity | left; simpl; lia].
Defined.

(** C1 counterexample: with the channel 0, 3 LEDs, the left button on pixel 5
    and no right button, the first PREVIEW tick paints the strip white, then
    reads pixel 5 and raises; the strip thread ends ([Crashed]). *)
Lemma button_index_out_of_range_crash :
  sys_run [HostConfigure (mkConfig (Some 0) 3 5 (-1)); StripStep; StripStep;
           HostSwitch PREVIEW; StripStep] (ctrl_init true (fun _ => 0)) =
  (mkCtrl Crashed (set_state_queue
     (set_leds (set_right_btn_led (set_left_btn_led (set_led_count (set_spi_index
        (strip_init true (fun _ => 0)) 0) 3) 5) (-1)) (Some [black; black; black]))
     [PREVIEW]),
   [OpFill white; OpGet 5]).
Proof. vm_compute. reflexivity. Qed.

(** C2 (fails in the code): with both buttons on pixel 0 (the configuration
    defaults of [pibooth_configure]) and a device of 3 LEDs, the first PREVIEW
    tick paints the strip white, overlays pixel 0 with the left blinker's
    colour, then saves that overlay colour as the right button's
    pre-overlay value; the left restore writes white back, the right restore
    then writes the overlay colour (0, 0, 0) over it. After the tick pixel 0
    is (0, 0, 0), not its animation colour white. *)
Theorem button_restore_shared_pixel :
  let '(c, tr) := sys_run [HostConfigure (mkConfig (Some 0) 3 0 0); StripStep; StripStep;
                           HostSwitch PREVIEW; StripStep] (ctrl_init true (fun _ => 0)) in
  mode c = Running /\ actual_state (strip c) = Some PREVIEW /\
  tr = [OpFill white; OpGet 0; OpSet 0 black; OpGet 0; OpSet 0 black;
        OpShow [black; white; white]; OpSet 0 white; OpSet 0 black] /\
  leds (strip c) = Some [black; white; white].
Proof. vm_compute. repeat split. Qed.

(** ** The rotation of the buffer *)

Lemma py_range_0_1 (n : Z) :
  0 <= n -> py_range 0 n 1 = map Z.of_nat (seq 0 (Z.to_nat n)).
Proof.
  intros Hn. unfold py_range.
  replace ((n - 0 + 1 - 1) / 1) with n by (rewrite Z.div_1_r; lia).
  apply map_ext. intros k. lia.
Qed.

Lemma py_index_in (n i : Z) :
  0 <= i < n -> py_index n i = Some (Z.to_nat i).
Proof.
  intros Hi. unfold py_index.
  replace (i <? 0) with false by (symmetry; apply Z.ltb_ge; lia).
  replace (n <=? i) with false by (symmetry; apply Z.leb_gt; lia).
  replace (i <? 0) with false by (symmetry; apply Z.ltb_ge; lia). reflexivity.
Qed.

Lemma list_set_app {A} (a b : list A) (k : nat) (v : A) :
  list_set (a ++ b) (length a + k) v = a ++ list_set b k v.
Proof. induction a as [|x a IH]; simpl; [reflexivity|now rewrite IH]. Qed.

Lemma list_set_at {A} (a b : list A) (x v : A) :
  list_set (a ++ x :: b) (length a) v = a ++ v :: b.
Proof. induction a as [|z a IH]; simpl; [reflexivity|now rewrite IH]. Qed.

Lemma last_cons_default {A} (y : A) (l : list A) (d d' : A) :
  last (y :: l) d = last (y :: l) d'.
Proof. revert y; induction l as [|z l IH]; intros y; [reflexivity|apply IH]. Qed.

Lemma set_leds_leds s : set_leds s (leds s) = s.
Proof. destruct s; reflexivity. Qed.

Lemma set_leds_twice s a b : set_leds (set_leds s a) b = set_leds s b.
Proof. reflexivity. Qed.

Lemma rotate_loop (rest done : list rgb) (x : rgb) (s : Strip) :
  leds s = Some (done ++ x :: rest) ->
  exists tr,
    mapM_ (fun i => c <- leds_get (i + 1) ;; leds_set i (Some c))
          (map Z.of_nat (seq (length done) (length rest))) s =
    Ok tt (set_leds s (Some (done ++ rest ++ [last (x :: rest) x]))) tr.
Proof.
  revert done x s. induction rest as [|y rest IH]; intros done x s Hl.
  - exists []. simpl. rewrite <- Hl, set_leds_leds. reflexivity.
  - set (s1 := set_leds s (Some ((done ++ [y]) ++ y :: rest))).
    assert (Hl1 : leds s1 = Some ((done ++ [y]) ++ y :: rest)) by reflexivity.
    destruct (IH (done ++ [y]) y s1 Hl1) as [tr Htr].
    rewrite length_app in Htr. cbn [length] in Htr.
    replace (length done + 1)%nat with (S (length done)) in Htr by lia.
    assert (Hstep : (c <- leds_get (Z.of_nat (length done) + 1) ;;
                     leds_set (Z.of_nat (length done)) (Some c)) s =
                    Ok tt s1 [OpGet (Z.of_nat (length done) + 1);
                              OpSet (Z.of_nat (length done)) y]).
    { unfold bind, leds_get. rewrite Hl, length_app. simpl.
      rewrite py_index_in by lia.
      replace (Z.to_nat (Z.of_nat (length done) + 1)) with (length done + 1)%nat by lia.
      rewrite app_nth2 by lia. replace (length done + 1 - length done)%nat with 1%nat by lia.
      simpl. unfold leds_set. rewrite Hl, length_app. simpl.
      rewrite py_index_in by lia. rewrite Nat2Z.id, list_set_at. unfold s1. rewrite <- app_assoc. reflexivity. }
    eexists. cbn [length seq map mapM_].
    rewrite (bind_ok _ _ _ _ _ _ Hstep), Htr. unfold s1.
    rewrite set_leds_twice, <- !app_assoc.
    rewrite (last_cons_default y rest y x). reflexivity.
Qed.

Lemma rotate_leds_spec (s : Strip) (x : rgb) (rest : list rgb) :
  leds s = Some (x :: rest) ->
  exists tr, rotate_leds (Z.of_nat (length (x :: rest))) s =
             Ok tt (set_leds s (Some (rest ++ [x]))) tr.
Proof.
  intros Hl. destruct (rotate_loop rest [] x s Hl) as [tr Htr].
  cbn [length seq] in Htr.
  assert (Hfirst : leds_get 0 s = Ok x s [OpGet 0]).
  { unfold leds_get. rewrite Hl. reflexivity. }
  assert (Hlast : leds_set (-1) (Some x) (set_leds s (Some ([] ++ rest ++ [last (x :: rest) x])))
                  = Ok tt (set_leds s (Some (rest ++ [x]))) [OpSet (-1) x]).
  { unfold leds_set. cbn [leds set_leds app]. rewrite length_app. cbn [length].
    unfold py_index.
    replace (Z.of_nat (length rest + 1)) with (Z.of_nat (length rest) + 1) by lia.
    replace (-1 <? 0) with true by reflexivity.
    replace (-1 + (Z.of_nat (length rest) + 1)) with (Z.of_nat (length rest)) by lia.
    replace (Z.of_nat (length rest) <? 0) with false by (symmetry; apply Z.ltb_ge; lia).
    replace (Z.of_nat (length rest) + 1 <=? Z.of_nat (length rest)) with false
      by (symmetry; apply Z.leb_gt; lia).
    cbn [orb]. rewrite Nat2Z.id, list_set_at. reflexivity. }
  eexists. unfold rotate_leds. rewrite (bind_ok _ _ _ _ _ _ Hfirst). cbv beta.
  replace (Z.of_nat (length (x :: rest)) - 1) with (Z.of_nat (length rest))
    by (cbn [length]; lia).
  rewrite py_range_0_1, Nat2Z.id by lia.
  rewrite (bind_ok _ _ _ _ _ _ Htr), Hlast. reflexivity.
Qed.

(** ** Counters that wrap around *)

Lemma div_mod_step (m j : nat) :
  (0 < m)%nat ->
  (S j mod m = m - 1 -> S (S j) mod m = 0 /\ S (S j) / m = S (S j / m))%nat /\
  (S j mod m <> m - 1 -> S (S j) mod m = S (S j mod m) /\ S (S j) / m = S j / m)%nat.
Proof.
  intros Hm.
  pose proof (Nat.div_mod_eq (S j) m) as Hd.
  pose proof (Nat.mod_upper_bound (S j) m ltac:(lia)) as Hb.
  set (q := (S j / m)%nat) in *. set (r := (S j mod m)%nat) in *.
  split; intros Hr.
  - split.
    + symmetry. apply (Nat.mod_unique _ _ (S q)); lia.
    + symmetry. apply (Nat.div_unique _ _ _ 0); lia.
  - split.
    + symmetry. apply (Nat.mod_unique _ _ q); lia.
    + symmetry. apply (Nat.div_unique _ _ _ (S r)); lia.
Qed.

Lemma length_rotl1 {A} (l : list A) : length (rotl1 l) = length l.
Proof. destruct l; simpl; [reflexivity|rewrite length_app; simpl; lia]. Qed.

Lemma length_rotl {A} (k : nat) (l : list A) : length (rotl k l) = length l.
Proof.
  induction k as [|k IH]; [reflexivity|].
  unfold rotl in *. simpl. rewrite length_rotl1. exact IH.
Qed.

Lemma bind_ret_l {A B} (a : A) (k : A -> M B) s : bind (ret a) k s = k a s.
Proof. unfold bind, ret. destruct (k a s); reflexivity. Qed.

Lemma bind_gets {A B} (f : Strip -> A) (k : A -> M B) s : bind (gets f) k s = k (f s) s.
Proof. unfold bind, gets. destruct (k (f s) s); reflexivity. Qed.

Lemma bind_modify {B} (f : Strip -> Strip) (k : unit -> M B) s :
  bind (modify f) k s = k tt (f s).
Proof. unfold bind, modify. destruct (k tt (f s)); reflexivity. Qed.

Lemma bind_ok_nil {A B} (m : M A) (k : A -> M B) s a s1 :
  m s = Ok a s1 [] -> bind m k s = k a s1.
Proof. unfold bind. intros ->. destruct (k a s1); reflexivity. Qed.

Lemma processing_step (s : Strip) (x : rgb) (rest : list rgb) :
  leds s = Some (x :: rest) -> led_count s = Z.of_nat (length (x :: rest)) ->
  exists tr, animate_processing false s =
    if 50 <? delay s + 1
    then Ok true (set_leds (set_delay s 0) (Some (rest ++ [x]))) tr
    else Ok false (set_delay s (delay s + 1)) tr.
Proof.
  intros Hl Hn.
  destruct (rotate_leds_spec (set_delay (set_delay s (delay s + 1)) 0) x rest Hl)
    as [tr Htr].
  unfold animate_processing, set_delay_m.
  rewrite bind_ret_l, bind_gets, bind_modify, bind_gets. cbn [delay set_delay].
  destruct (50 <? delay s + 1).
  - rewrite bind_modify, bind_gets. cbn [led_count set_delay]. rewrite Hn.
    rewrite (bind_ok _ _ _ _ _ _ Htr). eexists. reflexivity.
  - exists []. reflexivity.
Qed.

Lemma processing_paint (s : Strip) (l : list rgb) :
  leds s = Some l -> length l = 12%nat -> led_count s = 12 ->
  exists tr, animate_processing true s =
    Ok false (set_delay (set_leds s (Some processing_tiles)) 1) tr.
Proof.
  intros Hl Hlen Hn.
  do 12 (destruct l as [|? l]; [discriminate|]).
  destruct l; [|discriminate].
  destruct s; cbn in Hl, Hn; subst. eexists. cbv. reflexivity.
Qed.

Lemma processing_run (k j : nat) (s : Strip) :
  leds s = Some (rotl (S j / 51) processing_tiles) -> led_count s = 12 ->
  delay s = Z.of_nat (S j mod 51) ->
  exists sk, anim_run animate_processing k s =
             Some (map (fun t => Nat.eqb (t mod 51) 0) (seq (S (S j)) k), sk) /\
    leds sk = Some (rotl (S (j + k) / 51) processing_tiles) /\ led_count sk = 12 /\
    delay sk = Z.of_nat (S (j + k) mod 51).
Proof.
  revert j s. induction k as [|k IH]; intros j s Hl Hn Hd.
  - exists s. rewrite Nat.add_0_r. auto.
  - destruct (rotl (S j / 51) processing_tiles) as [|x rest] eqn:Er.
    { apply (f_equal (@length rgb)) in Er. rewrite length_rotl in Er. discriminate. }
    assert (Hn' : led_count s = Z.of_nat (length (x :: rest))).
    { rewrite <- Er, length_rotl. exact Hn. }
    destruct (processing_step s x rest Hl Hn') as [tr Hstep].
    destruct (div_mod_step 51 j ltac:(lia)) as [Hwrap Hnowrap].
    replace (S (j + S k)) with (S (S j + k)) by lia.
    simpl anim_run. rewrite Hstep.
    destruct (Nat.eq_dec (S j mod 51) 50) as [Hw|Hw].
    + destruct (Hwrap Hw) as [Hm Hq].
      replace (50 <? delay s + 1) with true by (symmetry; apply Z.ltb_lt; lia).
      destruct (IH (S j) (set_leds (set_delay s 0) (Some (rest ++ [x]))))
        as (sk & Hrun & Hlk & Hnk & Hdk).
      * cbn [leds set_leds]. rewrite Hq.
        change (rotl (S (S j / 51)) processing_tiles)
          with (rotl1 (rotl (S j / 51) processing_tiles)).
        rewrite Er. reflexivity.
      * exact Hn.
      * cbn [delay set_leds set_delay]. rewrite Hm. reflexivity.
      * rewrite Hrun. exists sk. cbn [seq map]. rewrite Hm. simpl Nat.eqb.
        repeat split; assumption.
    + destruct (Hnowrap Hw) as [Hm Hq].
      replace (50 <? delay s + 1) with false by (symmetry; apply Z.ltb_ge;
        pose proof (Nat.mod_upper_bound (S j) 51); lia).
      destruct (IH (S j) (set_delay s (delay s + 1))) as (sk & Hrun & Hlk & Hnk & Hdk).
      * cbn [leds set_delay]. rewrite Hq, Er. exact Hl.
      * exact Hn.
      * cbn [delay set_delay]. rewrite Hm, Hd. lia.
      * rewrite Hrun. exists sk. cbn [seq map]. rewrite Hm. simpl Nat.eqb.
        repeat split; assumption.
Qed.

(** C6: Processing on 12 LEDs. Number the ticks from 1, the changed tick
    being tick 1. The changed tick paints red, green, blue, red, ... from
    index 0 ([processing_tiles]) and returns [False]; every later tick [t]
    signals dirty exactly when [t mod 51 = 0], and after tick [t] the buffer
    is the painted one rotated left by [t / 51] positions: by one after 51
    ticks, by two after 102. *)
Theorem processing_rotation_period (s : Strip) (l : list rgb) :
  leds s = Some l -> length l = 12%nat -> led_count s = 12 ->
  exists s0 tr, animate_processing true s = Ok false s0 tr /\
    leds s0 = Some processing_tiles /\
    forall k, exists ds sk, anim_run animate_processing k s0 = Some (ds, sk) /\
      ds = map (fun t => Nat.eqb (t mod 51) 0) (seq 2 k) /\
      leds sk = Some (rotl (S k / 51) processing_tiles).
Proof.
  intros Hl Hlen Hn.
  destruct (processing_paint s l Hl Hlen Hn) as [tr Htr].
  exists (set_delay (set_leds s (Some processing_tiles)) 1), tr.
  split; [exact Htr|]. split; [reflexivity|]. intros k.
  destruct (processing_run k 0 (set_delay (set_leds s (Some processing_tiles)) 1))
    as (sk & Hrun & Hlk & _ & _); [reflexivity|exact Hn|reflexivity|].
  exists (map (fun t => Nat.eqb (t mod 51) 0) (seq 2 k)), sk. auto.
Qed.

Lemma processing_rotation_period_witness :
  exists s0 tr,
    animate_processing true (set_led_count (set_leds (strip_init true (fun _ => 0))
      (Some (repeat black 12))) 12) = Ok false s0 tr /\
    leds s0 = Some processing_tiles /\
    forall k, exists ds sk, anim_run animate_processing k s0 = Some (ds, sk) /\
      ds = map (fun t => Nat.eqb (t mod 51) 0) (seq 2 k) /\
      leds sk = Some (rotl (S k / 51) processing_tiles).
Proof.
  apply (processing_rotation_period _ (repeat black 12)); reflexivity.
Defined.

(** ** Device operations of the building blocks *)

Section Ops.
Variable Q : DevOp -> Prop.
Hypothesis Q_get : forall i, Q (OpGet i).
Hypothesis Q_set : forall i c, Q (OpSet i c).
Hypothesis Q_fill : forall c, Q (OpFill c).

Lemma ops_ret {A} (a : A) : ops_in Q (ret a).
Proof. intros s b s' tr H. inversion H; subst. constructor. Qed.

Lemma ops_gets {A} (f : Strip -> A) : ops_in Q (gets f).
Proof. intros s b s' tr H. inversion H; subst. constructor. Qed.

Lemma ops_modify f : ops_in Q (modify f).
Proof. intros s b s' tr H. inversion H; subst. constructor. Qed.

Lemma ops_raise {A} : ops_in Q (@raise A).
Proof. intros s b s' tr H. discriminate. Qed.

Lemma ops_bind {A B} (m : M A) (k : A -> M B) :
  ops_in Q m -> (forall a, ops_in Q (k a)) -> ops_in Q (bind m k).
Proof.
  intros Hm Hk s b s2 tr H.
  destruct (bind_ok_inv m k s b s2 tr H) as (a & s1 & t1 & t2 & H1 & H2 & ->).
  apply Forall_app. split; [eapply Hm; eexact H1 | eapply Hk; exact H2].
Qed.

Lemma ops_mapM_ {A} (f : A -> M unit) (l : list A) :
  (forall x, ops_in Q (f x)) -> ops_in Q (mapM_ f l).
Proof.
  intros Hf. induction l as [|x l IH]; simpl; [apply ops_ret|apply ops_bind; auto].
Qed.

Lemma ops_leds_get i : ops_in Q (leds_get i).
Proof.
  intros s a s' tr H. unfold leds_get in H. destruct (leds s); [|discriminate].
  destruct (py_index _ i); inversion H; subst. repeat constructor; auto.
Qed.

Lemma ops_leds_set i c : ops_in Q (leds_set i c).
Proof.
  intros s a s' tr H. unfold leds_set in H.
  destruct (leds s); [|discriminate]. destruct c; [|discriminate].
  destruct (py_index _ i); inversion H; subst. repeat constructor; auto.
Qed.

Lemma ops_leds_fill c : ops_in Q (leds_fill c).
Proof.
  intros s a s' tr H. unfold leds_fill in H.
  destruct (leds s); inversion H; subst. repeat constructor; auto.
Qed.

Lemma ops_next_draw : ops_in Q next_draw.
Proof. intros s a s' tr H. inversion H; subst. constructor. Qed.

Ltac ops_step :=
  match goal with
  | |- ops_in Q (bind _ _) => apply ops_bind; [|intro]
  | |- ops_in Q (ret _) => apply ops_ret
  | |- ops_in Q (gets _) => apply ops_gets
  | |- ops_in Q (modify _) => apply ops_modify
  | |- ops_in Q raise => apply ops_raise
  | |- ops_in Q (mapM_ _ _) => apply ops_mapM_; intro
  | |- ops_in Q (leds_get _) => apply ops_leds_get
  | |- ops_in Q (leds_set _ _) => apply ops_leds_set
  | |- ops_in Q (leds_fill _) => apply ops_leds_fill
  | |- ops_in Q next_draw => apply ops_next_draw
  | |- ops_in Q (set_delay_m _) => unfold set_delay_m
  | |- ops_in Q (set_left _) => unfold set_left
  | |- ops_in Q (set_right _) => unfold set_right
  | |- ops_in Q (when _ _) => unfold when
  | |- ops_in Q random_random => unfold random_random
  | |- ops_in Q (random_randint _ _) => unfold random_randint
  | |- ops_in Q (rotate_leds _) => unfold rotate_leds
  | |- ops_in Q (animate_wait _) => unfold animate_wait
  | |- ops_in Q (animate_choose _) => unfold animate_choose
  | |- ops_in Q (animate_chosen _) => unfold animate_chosen
  | |- ops_in Q (animate_preview _) => unfold animate_preview
  | |- ops_in Q (animate_capture _) => unfold animate_capture
  | |- ops_in Q (animate_processing _) => unfold animate_processing
  | |- ops_in Q (animate_print _) => unfold animate_print
  | |- ops_in Q (if ?b then _ else _) => destruct b
  | |- ops_in Q (match ?x with _ => _ end) => destruct x
  | |- ops_in Q (let '(_, _) := ?x in _) => destruct x
  end.

(** The elif chain, the overlays and the restores only read, write and
    fill the buffer. *)
Lemma ops_render changed : ops_in Q (render changed).
Proof. unfold render. repeat ops_step. Qed.

Lemma ops_overlay idx blk set_blk changed :
  (forall f, ops_in Q (set_blk f)) ->
  ops_in Q (overlay_button idx blk set_blk changed).
Proof. intros Hs. unfold overlay_button. repeat (ops_step || apply Hs). Qed.

Lemma ops_restore idx c : ops_in Q (restore_button idx c).
Proof. unfold restore_button. repeat ops_step. Qed.

End Ops.

(** ** The pixel written by a button overlay *)

Lemma blinker_animate_enabled b : enabled (snd (blinker_animate b)) = enabled b.
Proof.
  unfold blinker_animate.
  destruct (enabled b) eqn:E; [|simpl; exact E].
  destruct (is_on b); [destruct (F64.leb _ _)|destruct (F64.leb _ _)]; simpl; auto.
Qed.

Lemma blinker_reset_enabled b : enabled (blinker_reset b) = enabled b.
Proof. reflexivity. Qed.

Lemma py_index_some n i k : py_index n i = Some k -> 0 <= i -> Z.of_nat k = i /\ i < n.
Proof.
  unfold py_index. intros H Hi.
  replace (i <? 0) with false in H by (symmetry; apply Z.ltb_ge; lia).
  destruct ((i <? 0) || (n <=? i)) eqn:E; [discriminate|].
  apply orb_false_iff in E as [_ E]. apply Z.leb_gt in E.
  inversion H; subst. split; lia.
Qed.

Section Overlay.
Variable idx : Strip -> Z.
Variable blk : Strip -> LedBlinker.
Variable set_blk : (LedBlinker -> LedBlinker) -> M unit.
Variable upd : (LedBlinker -> LedBlinker) -> Strip -> Strip.
Hypothesis set_blk_upd : forall f s, set_blk f s = Ok tt (upd f s) [].
Hypothesis upd_leds : forall f s, leds (upd f s) = leds s.
Hypothesis upd_idx : forall f s, idx (upd f s) = idx s.
Hypothesis upd_blk : forall f s, blk (upd f s) = f (blk s).
Hypothesis idx_set_leds : forall s v, idx (set_leds s v) = idx s.
Hypothesis blk_set_leds : forall s v, blk (set_leds s v) = blk s.

Lemma overlay_pixel changed s x s' tr :
  overlay_button idx blk set_blk changed s = Ok x s' tr -> 0 <= idx s ->
  exists buf c, leds s = Some buf /\ (Z.to_nat (idx s) < length buf)%nat /\
    blinker_get_color (blk s') = Some c /\
    leds s' = Some (list_set buf (Z.to_nat (idx s)) c) /\
    idx s' = idx s /\ enabled (blk s') = enabled (blk s).
Proof.
  intros H Hi. unfold overlay_button in H. rewrite bind_gets in H.
  replace (-1 <? idx s) with true in H by (symmetry; apply Z.ltb_lt; lia).
  apply bind_ok_inv in H as (saved & s1 & t1 & t2 & Hg & H & _).
  unfold leds_get in Hg. destruct (leds s) as [buf|] eqn:El; [|discriminate].
  destruct (py_index _ (idx s)) as [k|] eqn:Ep; [|discriminate].
  inversion Hg; subst s1 saved t1; clear Hg.
  destruct (py_index_some _ _ _ Ep Hi) as [Hk Hlt].
  set (b0 := if changed then blinker_reset (blk s) else blk s).
  assert (H1 : exists s1, when changed (set_blk blinker_reset) s = Ok tt s1 [] /\
                 leds s1 = leds s /\ idx s1 = idx s /\ blk s1 = b0).
  { unfold b0, when. destruct changed.
    - exists (upd blinker_reset s). rewrite set_blk_upd. auto.
    - exists s. auto. }
  destruct H1 as (s1 & Hw & Hl1 & Hi1 & Hb1).
  rewrite (bind_ok_nil _ _ _ _ _ Hw), bind_gets, Hb1 in H.
  destruct (blinker_animate b0) as [ch b'] eqn:Ea.
  destruct (bind_ok_inv _ _ _ _ _ _ H) as (x1 & s2 & t3 & t4 & H2 & H3 & _).
  rewrite set_blk_upd in H2. inversion H2; subst x1 s2 t3; clear H2 H.
  apply bind_ok_inv in H3 as (x2 & s3 & t5 & t6 & H4 & H5 & _).
  inversion H5; subst; clear H5.
  unfold leds_set in H4. rewrite upd_leds, Hl1, El in H4.
  destruct (blinker_get_color (blk (upd (fun _ => b') s1))) as [c|] eqn:Ec.
  2:{ rewrite upd_blk in Ec. rewrite Ec in H4. discriminate. }
  rewrite upd_blk in Ec. rewrite Ec in H4. rewrite Ep in H4.
  inversion H4; subst; clear H4.
  exists buf, c. cbn [leds set_leds].
  replace (Z.to_nat (idx s)) with k by lia.
  rewrite idx_set_leds, blk_set_leds, upd_idx, upd_blk.
  repeat split; try lia; auto.
  transitivity (enabled b0).
  - rewrite <- (blinker_animate_enabled b0), Ea. reflexivity.
  - unfold b0. destruct changed; reflexivity.
Qed.
End Overlay.

Lemma render_left_off_right_off changed s d s' tr :
  render changed s = Ok d s' tr -> left_off_right_off s -> left_off_right_off s'.
Proof.
  pose proof (keeps_animations_anim changed) as (Hw & Hc & Hch & Hp & Hca & Hpr & Hpt).
  intros H Hinv. unfold render in H. decomp;
  repeat match goal with
  | E : animate_wait _ _ = Ok _ _ _ |- _ => apply Hw in E
  | E : animate_choose _ _ = Ok _ _ _ |- _ => apply Hc in E
  | E : animate_chosen _ _ = Ok _ _ _ |- _ => apply Hch in E
  | E : animate_preview _ _ = Ok _ _ _ |- _ => apply Hp in E
  | E : animate_capture _ _ = Ok _ _ _ |- _ => apply Hca in E
  | E : animate_processing _ _ = Ok _ _ _ |- _ => apply Hpr in E
  | E : animate_print _ _ = Ok _ _ _ |- _ => apply Hpt in E
  | E : leds_fill _ _ = Ok _ _ _ |- _ =>
      apply (keeps_leds_fill frame_anim frame_anim_leds) in E
  end;
  repeat match goal with E : frame_anim _ _ |- _ => destruct E as (_ & ? & ?) end;
  unfold left_off_right_off in *; simpl in *;
  repeat match goal with
  | E : left_btn_blinker _ = left_btn_blinker _ |- _ => rewrite E in *; clear E
  | E : right_btn_blinker _ = right_btn_blinker _ |- _ => rewrite E in *; clear E
  end; auto; try discriminate.
Qed.

Lemma nth_error_list_set_same {A} (l : list A) k v :
  (k < length l)%nat -> nth_error (list_set l k v) k = Some v.
Proof.
  revert k; induction l as [|x l IH]; intros [|k] Hk; simpl in *; try lia; auto.
  apply IH. lia.
Qed.

Lemma nth_error_list_set_other {A} (l : list A) k j v :
  j <> k -> nth_error (list_set l k v) j = nth_error l j.
Proof.
  revert k j; induction l as [|x l IH]; intros [|k] [|j] Hjk; simpl; auto; try lia.
Qed.

Lemma dequeue_blinkers s ch s1 tr :
  dequeue s = Ok ch s1 tr ->
  tr = [] /\ left_btn_blinker s1 = left_btn_blinker s /\
  right_btn_blinker s1 = right_btn_blinker s /\ leds s1 = leds s /\
  left_btn_led s1 = left_btn_led s /\ right_btn_led s1 = right_btn_led s.
Proof.
  destruct (state_queue s) as [|p rest] eqn:Eq.
  - rewrite (dequeue_nil s Eq). intros H; inversion H; subst; repeat split.
  - rewrite (dequeue_cons s p rest Eq). intros H; inversion H; subst; repeat split.
Qed.

Lemma not_show_get i : not_show (OpGet i).
Proof. exact I. Qed.
Lemma not_show_set i c : not_show (OpSet i c).
Proof. exact I. Qed.
Lemma not_show_fill c : not_show (OpFill c).
Proof. exact I. Qed.

Lemma no_show_in {A} (m : M A) (Hm : ops_in not_show m) s a s' tr buf :
  m s = Ok a s' tr -> ~ In (OpShow buf) tr.
Proof.
  intros H Hin. apply Hm in H. rewrite Forall_forall in H. exact (H _ Hin).
Qed.

Lemma overlay_pixel_left changed s x s' tr :
  overlay_button left_btn_led left_btn_blinker set_left changed s = Ok x s' tr ->
  0 <= left_btn_led s ->
  exists buf c, leds s = Some buf /\ (Z.to_nat (left_btn_led s) < length buf)%nat /\
    blinker_get_color (left_btn_blinker s') = Some c /\
    leds s' = Some (list_set buf (Z.to_nat (left_btn_led s)) c) /\
    left_btn_led s' = left_btn_led s /\
    enabled (left_btn_blinker s') = enabled (left_btn_blinker s).
Proof.
  intros H Hi.
  eapply overlay_pixel with (upd := fun f s => set_left_btn_blinker s (f (left_btn_blinker s)));
    [intros; reflexivity .. | exact H | exact Hi].
Qed.

Lemma overlay_pixel_right changed s x s' tr :
  overlay_button right_btn_led right_btn_blinker set_right changed s = Ok x s' tr ->
  0 <= right_btn_led s ->
  exists buf c, leds s = Some buf /\ (Z.to_nat (right_btn_led s) < length buf)%nat /\
    blinker_get_color (right_btn_blinker s') = Some c /\
    leds s' = Some (list_set buf (Z.to_nat (right_btn_led s)) c) /\
    right_btn_led s' = right_btn_led s /\
    enabled (right_btn_blinker s') = enabled (right_btn_blinker s).
Proof.
  intros H Hi.
  eapply overlay_pixel with (upd := fun f s => set_right_btn_blinker s (f (right_btn_blinker s)));
    [intros; reflexivity .. | exact H | exact Hi].
Qed.

Lemma disabled_color b : enabled b = false -> blinker_get_color b = Some black.
Proof. unfold blinker_get_color. intros ->. reflexivity. Qed.

Ltac no_show_parts :=
  repeat match goal with
  | Hin : In _ (_ ++ _) |- _ => apply in_app_or in Hin as [Hin|Hin]
  | Hin : In _ [] |- _ => destruct Hin
  | Hin : In (OpShow _) ?t, E : render _ _ = Ok _ _ ?t |- _ =>
      exfalso; refine (no_show_in _ _ _ _ _ _ _ E Hin);
      apply ops_render; intros; exact I
  | Hin : In (OpShow _) ?t, E : overlay_button _ _ _ _ _ = Ok _ _ ?t |- _ =>
      exfalso; refine (no_show_in _ _ _ _ _ _ _ E Hin);
      apply ops_overlay; intros; try exact I;
      first [unfold set_left | unfold set_right]; apply ops_modify
  | Hin : In (OpShow _) ?t, E : restore_button _ _ _ = Ok _ _ ?t |- _ =>
      exfalso; refine (no_show_in _ _ _ _ _ _ _ E Hin);
      apply ops_restore; intros; exact I
  end.

(** A tick never flushes a button pixel whose blinker is disabled in any
    colour but black, as long as a disabled left blinker goes with a
    disabled right one. *)
Lemma tick_disabled_button_black :
  forall s r s' tr buf i c, left_off_right_off s -> tick s = Ok r s' tr ->
  In (OpShow buf) tr -> 0 <= i ->
  (i = left_btn_led s /\ enabled (left_btn_blinker s') = false \/
   i = right_btn_led s /\ enabled (right_btn_blinker s') = false) ->
  nth_error buf (Z.to_nat i) = Some c -> c = black.
Proof.
  intros s r s' tr buf i c Hinv H Hin Hi Hsel Hnth. unfold tick in H. decomp.
  all: apply dequeue_blinkers in E as (-> & HbL & HbR & Hl0 & HiL & HiR).
  all: no_show_parts.
  - unfold leds_fill in E0. rewrite Heqo in E0. inversion E0; subst.
    destruct Hin as [Hc|[]]. discriminate.
  - unfold leds_fill in E0. rewrite Heqo in E0. inversion E0; subst.
    unfold leds_show in E1. cbn [leds set_leds] in E1. inversion E1; subst.
    destruct Hin as [Hc|[]]. inversion Hc; subst.
    change (black :: map (fun _ : rgb => black) l0)
      with (map (fun _ : rgb => black) (r0 :: l0)) in Hnth.
    rewrite nth_error_map in Hnth.
    destruct (nth_error (r0 :: l0) (Z.to_nat i)); inversion Hnth; reflexivity.
  - unfold leds_show in E3. destruct (leds s3) as [b3|] eqn:El3; [|discriminate].
    injection E3 as _ Es Et. subst s4 t7.
    destruct Hin as [Hc|[]]. inversion Hc; subst buf; clear Hc.
    assert (Hinv0 : left_off_right_off s0).
    { unfold left_off_right_off. rewrite HbL, HbR. exact Hinv. }
    pose proof (render_left_off_right_off _ _ _ _ _ E0 Hinv0) as Hinv1.
    apply render_frame_base in E0. destruct E0 as (HL1 & HR1 & _).
    pose proof (overlay_left_effect _ _ _ _ _ E1) as ((HL2 & HR2 & _) & HbR2 & _).
    pose proof (overlay_right_effect _ _ _ _ _ E2) as ((HL3 & HR3 & _) & HbL3 & _).
    apply restore_frame in E4. apply restore_frame in E5.
    destruct E4 as (_ & HbL4 & HbR4). destruct E5 as (_ & HbL5 & HbR5).
    destruct Hsel as [[-> Hd]|[-> Hd]].
    + rewrite HbL5, HbL4, HbL3 in Hd.
      destruct (overlay_pixel_left _ _ _ _ _ E1 ltac:(lia))
        as (b1 & cL & Hb1 & Hk1 & Hc1 & Hl2 & _ & He2).
      rewrite disabled_color in Hc1 by exact Hd. injection Hc1 as <-.
      rewrite HL1, HiL in Hk1, Hl2.
      destruct (Z_le_gt_dec (right_btn_led s2) (-1)) as [Hr|Hr].
      * rewrite overlay_skipped in E2 by exact Hr. inversion E2; subst s3.
        rewrite Hl2 in El3. inversion El3; subst b3.
        rewrite nth_error_list_set_same in Hnth by exact Hk1. congruence.
      * destruct (overlay_pixel_right _ _ _ _ _ E2 ltac:(lia))
          as (b2 & cR & Hb2 & Hk2 & Hc2 & Hl3 & _ & He3).
        rewrite Hl2 in Hb2. inversion Hb2; subst b2.
        rewrite Hl3 in El3. inversion El3; subst b3.
        destruct (Nat.eq_dec (Z.to_nat (right_btn_led s2)) (Z.to_nat (left_btn_led s)))
          as [Hk|Hk].
        -- rewrite Hk, nth_error_list_set_same in Hnth
             by (rewrite length_list_set; exact Hk1).
           assert (Hoff : enabled (right_btn_blinker s3) = false).
           { rewrite He3, HbR2. apply Hinv1. rewrite <- He2. exact Hd. }
           rewrite disabled_color in Hc2 by exact Hoff. congruence.
        -- rewrite nth_error_list_set_other in Hnth by congruence.
           rewrite nth_error_list_set_same in Hnth by exact Hk1. congruence.
    + rewrite HbR5, HbR4 in Hd.
      assert (Hr2 : right_btn_led s2 = right_btn_led s) by congruence.
      destruct (overlay_pixel_right _ _ _ _ _ E2 ltac:(lia))
        as (b2 & cR & Hb2 & Hk2 & Hc2 & Hl3 & _ & _).
      rewrite disabled_color in Hc2 by exact Hd. injection Hc2 as <-.
      rewrite Hl3 in El3. inversion El3; subst b3. rewrite Hr2 in Hnth, Hk2.
      rewrite nth_error_list_set_same in Hnth by exact Hk2. congruence.
Qed.

Lemma overlay_enabled_left changed s x s' tr :
  overlay_button left_btn_led left_btn_blinker set_left changed s = Ok x s' tr ->
  enabled (left_btn_blinker s') = enabled (left_btn_blinker s) /\
  right_btn_blinker s' = right_btn_blinker s.
Proof.
  intros H. apply overlay_left_effect in H as (_ & HR & HL). split; [|exact HR].
  rewrite HL. destruct (-1 <? left_btn_led s); [|reflexivity].
  rewrite blinker_animate_enabled. destruct changed; reflexivity.
Qed.

Lemma overlay_enabled_right changed s x s' tr :
  overlay_button right_btn_led right_btn_blinker set_right changed s = Ok x s' tr ->
  enabled (right_btn_blinker s') = enabled (right_btn_blinker s) /\
  left_btn_blinker s' = left_btn_blinker s.
Proof.
  intros H. apply overlay_right_effect in H as (_ & HL & HR). split; [|exact HL].
  rewrite HR. destruct (-1 <? right_btn_led s); [|reflexivity].
  rewrite blinker_animate_enabled. destruct changed; reflexivity.
Qed.

Lemma tick_left_off_right_off s r s' tr :
  tick s = Ok r s' tr -> left_off_right_off s -> left_off_right_off s'.
Proof.
  intros H Hinv. unfold tick in H. decomp.
  all: match goal with
       | E : dequeue _ = Ok _ ?s0 _ |- _ =>
           apply dequeue_blinkers in E as (-> & HbL & HbR & _);
           assert (Hinv0 : left_off_right_off s0)
             by (unfold left_off_right_off; rewrite HbL, HbR; exact Hinv)
       end.
  all: try exact Hinv0.
  all: repeat match goal with
  | E : leds_fill _ _ = Ok _ _ _ |- _ =>
      apply (keeps_leds_fill frame_anim frame_anim_leds) in E
  | E : leds_show _ = Ok _ _ _ |- _ => apply (keeps_leds_show frame_anim frame_anim_refl) in E
  | E : restore_button _ _ _ = Ok _ _ _ |- _ => apply restore_frame in E
  end.
  all: repeat match goal with E : frame_anim _ _ |- _ => destruct E as (_ & ? & ?) end.
  all: unfold left_off_right_off in *.
  all: try (repeat match goal with
            | E : left_btn_blinker ?x = _ |- context [left_btn_blinker ?x] => rewrite E
            | E : right_btn_blinker ?x = _ |- context [right_btn_blinker ?x] => rewrite E
            end; assumption).
  all: match goal with
       | E0 : render _ _ = Ok _ ?s1 _, E1 : overlay_button left_btn_led _ _ _ _ = Ok _ ?s2 _,
         E2 : overlay_button right_btn_led _ _ _ _ = Ok _ ?s3 _ |- _ =>
           pose proof (render_left_off_right_off _ _ _ _ _ E0 Hinv0) as Hinv1;
           apply overlay_enabled_left in E1; apply overlay_enabled_right in E2
       end.
  all: unfold left_off_right_off in *.
  all: repeat match goal with
       | E : left_btn_blinker ?x = left_btn_blinker _ |- context [left_btn_blinker ?x] => rewrite E
       | E : right_btn_blinker ?x = right_btn_blinker _ |- context [right_btn_blinker ?x] => rewrite E
       end.
  all: intros Hl; destruct E1 as [E1 E1']; destruct E2 as [E2 E2'].
  all: rewrite E2', E1 in Hl; rewrite E2, E1'; apply Hinv1; exact Hl.
Qed.

Lemma configure_blinkers s u s' tr :
  configure s = Ok u s' tr ->
  left_btn_blinker s' = left_btn_blinker s /\ right_btn_blinker s' = right_btn_blinker s.
Proof.
  unfold configure. rewrite !bind_gets. intros H.
  destruct ((-1 <? spi_index s) && (0 <? led_count s)); [|rewrite bind_modify in H];
  [destruct (negb (ws2801_available s)); [rewrite bind_modify in H|
   destruct ((spi_index s =? 0) || (spi_index s =? 1));
     [rewrite bind_modify in H|rewrite bind_ret_l in H]]|];
  unfold modify in H; inversion H; subst; split; reflexivity.
Qed.

Lemma ctrl_step_left_off_right_off c :
  left_off_right_off (strip c) -> left_off_right_off (strip (fst (ctrl_step c))).
Proof.
  intros Hinv. unfold ctrl_step.
  destruct (mode c); simpl; auto.
  - destruct (state_queue (strip c)); [exact Hinv|].
    destruct (LedState_eqb _ _); exact Hinv.
  - destruct (configure (strip c)) as [u s' tr|tr] eqn:E; simpl; [|exact Hinv].
    apply configure_blinkers in E as [EL ER].
    unfold left_off_right_off in *. rewrite EL, ER. exact Hinv.
  - destruct (tick (strip c)) as [[] s' tr|tr] eqn:E; simpl; try exact Hinv;
    exact (tick_left_off_right_off _ _ _ _ E Hinv).
Qed.

Lemma sys_run_left_off_right_off acts c :
  left_off_right_off (strip c) -> left_off_right_off (strip (fst (sys_run acts c))).
Proof.
  revert c. induction acts as [|a acts IH]; intros c Hinv; [exact Hinv|].
  simpl. destruct (sys_step a c) as [c1 t1] eqn:E1.
  destruct (sys_run acts c1) as [c2 t2] eqn:E2. simpl.
  replace c2 with (fst (sys_run acts c1)) by (rewrite E2; reflexivity).
  apply IH.
  replace c1 with (fst (sys_step a c)) by (rewrite E1; reflexivity).
  destruct a; simpl; try exact (ctrl_step_left_off_right_off c Hinv);
  unfold left_off_right_off in *; simpl.
  - exact Hinv.
  - unfold setConfiguration. destruct (_ || _); exact Hinv.
  - exact Hinv.
Qed.

(** C10: a disabled blinker is inert and black: [animate] returns [False]
    and leaves the blinker as it was ([elapsed] and [is_on] included), and
    [get_color] is (0, 0, 0). Consequently, in every state the strip object
    can reach from its creation (host calls and steps of the strip thread in
    any order), a flush done by a tick shows (0, 0, 0) at the pixel of a
    button whose blinker is disabled, whatever the animation painted there. *)
Theorem disabled_blinker_black :
  (forall b, enabled b = false ->
     blinker_animate b = (false, b) /\ blinker_get_color b = Some black) /\
  (forall lib rng acts r s' tr buf i col,
     let s := strip (fst (sys_run acts (ctrl_init lib rng))) in
     tick s = Ok r s' tr -> In (OpShow buf) tr -> 0 <= i ->
     (i = left_btn_led s /\ enabled (left_btn_blinker s') = false \/
      i = right_btn_led s /\ enabled (right_btn_blinker s') = false) ->
     nth_error buf (Z.to_nat i) = Some col -> col = black).
Proof.
  split.
  - intros b Hb. unfold blinker_animate, blinker_get_color. rewrite Hb. auto.
  - intros lib rng acts r s' tr buf i col s Ht Hin Hi Hsel Hnth.
    refine (tick_disabled_button_black s r s' tr buf i col _ Ht Hin Hi Hsel Hnth).
    apply sys_run_left_off_right_off. unfold left_off_right_off. reflexivity.
Qed.

Lemma disabled_blinker_black_witness :
  exists r s' tr buf,
    tick (strip (fst (sys_run [HostConfigure (mkConfig (Some 0) 3 0 1); StripStep; StripStep;
                               HostCaptureNbr 2; HostSwitch CHOSEN]
                              (ctrl_init true (fun _ => 0))))) = Ok r s' tr /\
    In (OpShow buf) tr /\ enabled (left_btn_blinker s') = false /\
    forall col, nth_error buf 0 = Some col -> col = black.
Proof.
  destruct (tick (strip (fst (sys_run [HostConfigure (mkConfig (Some 0) 3 0 1); StripStep;
              StripStep; HostCaptureNbr 2; HostSwitch CHOSEN] (ctrl_init true (fun _ => 0))))))
    as [r s' tr|tr] eqn:Ht; [|vm_compute in Ht; discriminate].
  pose proof Ht as Ht'. vm_compute in Ht'. injection Ht' as Hr Hs Htr.
  exists r, s', tr, [black; black; (255, 0, 0)].
  split; [reflexivity|]. split; [rewrite <- Htr; simpl; tauto|].
  split; [rewrite <- Hs; reflexivity|].
  intros col Hcol.
  apply ((proj2 disabled_blinker_black) true (fun _ => 0)
           [HostConfigure (mkConfig (Some 0) 3 0 1); StripStep; StripStep;
            HostCaptureNbr 2; HostSwitch CHOSEN] r s' tr [black; black; (255, 0, 0)] 0 col);
    [exact Ht | rewrite <- Htr; simpl; tauto | lia | left; split; [reflexivity|] | exact Hcol].
  rewrite <- Hs. reflexivity.
Defined.

(* ================================================================== *)
(** * Further properties of the code *)

Section BlinkerPeriod.
Variables (ton toff : F64.t) (non noff : nat).
Hypothesis Hpos : (0 < noff + non)%nat.
Hypothesis Hcycle : forall b, enabled b = true -> time_on b = ton -> time_off b = toff ->
  blinker_trace (noff + non) (blinker_reset b) =
    (map (blinker_pattern non noff) (seq 0 (noff + non)), blinker_reset b).

Lemma blinker_pattern_shift k :
  blinker_pattern non noff (k + (noff + non)) = blinker_pattern non noff k.
Proof.
  unfold blinker_pattern. replace (S (k + (noff + non))) with (S k + 1 * (noff + non))%nat by lia.
  rewrite Nat.Div0.mod_add. reflexivity.
Qed.

Lemma blinker_periods q b k :
  enabled b = true -> time_on b = ton -> time_off b = toff ->
  (k < (noff + non) * q)%nat ->
  nth_error (fst (blinker_trace ((noff + non) * q) (blinker_reset b))) k =
    Some (blinker_pattern non noff k).
Proof.
  intros He Hon Hoff. revert k; induction q as [|q IH]; intros k Hk; [lia|].
  replace ((noff + non) * S q)%nat with ((noff + non) + (noff + non) * q)%nat by lia.
  rewrite blinker_trace_add_fst, (Hcycle b He Hon Hoff). cbn [fst snd].
  destruct (Nat.lt_ge_cases k (noff + non)) as [Hlt|Hge].
  - rewrite nth_error_app1 by (rewrite length_map, length_seq; lia).
    rewrite nth_error_map, nth_error_seq.
    destruct (Nat.ltb_spec k (noff + non)); [reflexivity|lia].
  - rewrite nth_error_app2 by (rewrite length_map, length_seq; lia).
    rewrite length_map, length_seq, IH by lia.
    replace k with ((k - (noff + non)) + (noff + non))%nat at 2 by lia.
    rewrite blinker_pattern_shift. reflexivity.
Qed.

Lemma blinker_pattern_trace n b k :
  enabled b = true -> time_on b = ton -> time_off b = toff -> (k < n)%nat ->
  nth_error (fst (blinker_trace n (blinker_reset b))) k = Some (blinker_pattern non noff k).
Proof.
  intros He Hon Hoff Hk.
  rewrite (blinker_trace_prefix n ((noff + non) * n - n) k _ Hk).
  replace (n + ((noff + non) * n - n))%nat with ((noff + non) * n)%nat by nia.
  apply blinker_periods; auto. nia.
Qed.
End BlinkerPeriod.

Lemma print_blinker_cycle b :
  enabled b = true -> time_on b = f_0_2 -> time_off b = f_0_6 ->
  blinker_trace (60 + 20) (blinker_reset b) =
    (map (blinker_pattern 20 60) (seq 0 (60 + 20)), blinker_reset b).
Proof.
  intros He Hon Hoff. destruct b as [toff ton con coff o el en]; simpl in *; subst.
  vm_compute. reflexivity.
Qed.

Lemma choose_blinker_cycle b :
  enabled b = true -> time_on b = f_0_2 -> time_off b = f_0_2 ->
  blinker_trace (20 + 20) (blinker_reset b) =
    (map (blinker_pattern 20 20) (seq 0 (20 + 20)), blinker_reset b).
Proof.
  intros He Hon Hoff. destruct b as [toff ton con coff o el en]; simpl in *; subst.
  vm_compute. reflexivity.
Qed.

(** X1: a button blinker given the PRINT preset of [run] (on for 0.2 s,
    off for 0.6 s, whatever its colours) and then reset blinks with a period
    of 80 ticks: at its k-th [animate] call (k from 0), with t = (k+1) mod 80,
    the blinker is on after the call exactly when t >= 60, and the call
    returns True exactly when t = 60 or t = 0. *)
Theorem print_blinker_timing (b : LedBlinker) (con coff : rgb) (n k : nat) :
  (k < n)%nat ->
  nth_error (fst (blinker_trace n (blinker_reset (blinker_set b con coff f_0_2 f_0_6)))) k =
    Some (let t := (S k mod 80)%nat in (Nat.eqb t 60 || Nat.eqb t 0, Nat.leb 60 t)).
Proof.
  intros Hk.
  exact (blinker_pattern_trace f_0_2 f_0_6 20 60 ltac:(lia) print_blinker_cycle n
           (blinker_set b con coff f_0_2 f_0_6) k eq_refl eq_refl eq_refl Hk).
Qed.

(** X2: a button blinker given the CHOOSE preset of [run] (on for 0.2 s,
    off for 0.2 s) and then reset blinks with a period of 40 ticks: at its
    k-th [animate] call (k from 0), with t = (k+1) mod 40, it is on after the
    call exactly when t >= 20, and the call returns True exactly when t = 20
    or t = 0. *)
Theorem choose_blinker_timing (b : LedBlinker) (con coff : rgb) (n k : nat) :
  (k < n)%nat ->
  nth_error (fst (blinker_trace n (blinker_reset (blinker_set b con coff f_0_2 f_0_2)))) k =
    Some (let t := (S k mod 40)%nat in (Nat.eqb t 20 || Nat.eqb t 0, Nat.leb 20 t)).
Proof.
  intros Hk.
  exact (blinker_pattern_trace f_0_2 f_0_2 20 20 ltac:(lia) choose_blinker_cycle n
           (blinker_set b con coff f_0_2 f_0_2) k eq_refl eq_refl eq_refl Hk).
Qed.

Lemma print_blinker_timing_witness :
  (59 < 100)%nat /\
  nth_error (fst (blinker_trace 100 (blinker_reset (blinker_set blinker_init (0, 170, 85) black f_0_2 f_0_6)))) 59 =
    Some (true, true).
Proof.
  split; [lia|].
  exact (print_blinker_timing blinker_init (0, 170, 85) black 100 59 ltac:(lia)).
Defined.

Lemma choose_blinker_timing_witness :
  (39 < 50)%nat /\
  nth_error (fst (blinker_trace 50 (blinker_reset (blinker_set blinker_init red black f_0_2 f_0_2)))) 39 =
    Some (true, false).
Proof.
  split; [lia|].
  exact (choose_blinker_timing blinker_init red black 50 39 ltac:(lia)).
Defined.

Lemma capture_step (s : Strip) (buf : list rgb) (changed : bool) :
  leds s = Some buf ->
  let d := (if changed then 0 else delay s) + 1 in
  animate_capture changed s =
    Ok true (set_leds (set_delay s d) (Some (map (fun _ => if 4 <? d then white else black) buf)))
       [OpFill (if 4 <? d then white else black)].
Proof.
  intros Hl d. unfold animate_capture, set_delay_m.
  destruct changed; [rewrite bind_modify|rewrite bind_ret_l];
  rewrite bind_gets, bind_modify, bind_gets; cbn [delay set_delay];
  unfold d; destruct (4 <? _);
  (unfold bind, leds_fill; cbn [leds set_delay]; rewrite Hl; reflexivity).
Qed.

Lemma capture_run (k : nat) (s : Strip) (buf : list rgb) :
  leds s = Some buf -> 0 <= delay s ->
  exists sk, anim_run animate_capture k s = Some (repeat true k, sk) /\
    delay sk = delay s + Z.of_nat k /\
    (k <> O -> leds sk = Some (map (fun _ => if 4 <? delay sk then white else black) buf)).
Proof.
  revert s buf. induction k as [|k IH]; intros s buf Hl Hd.
  - exists s. split; [reflexivity|]. split; [lia|]. intros H; contradiction.
  - simpl anim_run. rewrite (capture_step s buf false Hl).
    cbv zeta.
    destruct (IH (set_leds (set_delay s (delay s + 1))
                   (Some (map (fun _ => if 4 <? delay s + 1 then white else black) buf)))
                 (map (fun _ => if 4 <? delay s + 1 then white else black) buf) eq_refl)
      as (sk & Hrun & Hdk & Hlk); [cbn [delay set_delay set_leds]; lia|].
    rewrite Hrun. exists sk. split; [reflexivity|].
    cbn [delay set_delay set_leds] in Hdk. split; [lia|]. intros _.
    destruct k as [|k].
    + cbn in Hrun. injection Hrun as <-. cbn [leds set_leds delay set_delay]. reflexivity.
    + rewrite Hlk by discriminate. rewrite map_map. reflexivity.
Qed.

(** X3: on entering CAPTURE ([changed] true) animate_capture fills the
    strip with black; on the later calls ([changed] false) the strip stays
    black for three calls and is white from the fourth later call on, and
    every call returns True. *)
Theorem capture_black_then_white (s : Strip) (buf : list rgb) :
  leds s = Some buf ->
  exists s0 tr, animate_capture true s = Ok true s0 tr /\
    leds s0 = Some (map (fun _ => black) buf) /\
    forall k, exists sk, anim_run animate_capture k s0 = Some (repeat true k, sk) /\
      leds sk = Some (map (fun _ => if Nat.ltb 4 (S k) then white else black) buf).
Proof.
  intros Hl. rewrite (capture_step s buf true Hl). cbv zeta.
  eexists _, _. split; [reflexivity|]. split; [reflexivity|].
  intros k. destruct (capture_run k (set_leds (set_delay s (0 + 1))
     (Some (map (fun _ => if 4 <? 0 + 1 then white else black) buf))) _ eq_refl)
    as (sk & Hrun & Hdk & Hlk); [cbn; lia|].
  exists sk. split; [exact Hrun|].
  destruct k as [|k].
  - cbn in Hrun. injection Hrun as <-. reflexivity.
  - rewrite Hlk by discriminate. rewrite map_map. cbn [delay set_delay set_leds] in Hdk.
    rewrite Hdk. f_equal. apply map_ext. intros _.
    replace (4 <? 0 + 1 + Z.of_nat (S k)) with (Nat.ltb 4 (S (S k))); [reflexivity|].
    destruct (Nat.ltb_spec 4 (S (S k))), (Z.ltb_spec 4 (0 + 1 + Z.of_nat (S k))); lia.
Qed.

Section PeriodicRun.
Variable m : bool -> M bool.
Variable T : nat.
Variable Q : nat -> Strip -> Prop.
Hypothesis Hstep : forall r s, Q r s ->
  exists s' tr, m false s = Ok (Z.of_nat T <? delay s + 1) s' tr /\
    if Z.of_nat T <? delay s + 1 then delay s' = 0 /\ Q (S r) s'
    else delay s' = delay s + 1 /\ Q r s'.

Lemma periodic_run (k j : nat) (s : Strip) :
  Q (S j / S T) s -> delay s = Z.of_nat (S j mod S T) ->
  exists sk, anim_run m k s =
             Some (map (fun t => Nat.eqb (t mod S T) 0) (seq (S (S j)) k), sk) /\
    Q (S (j + k) / S T) sk /\ delay sk = Z.of_nat (S (j + k) mod S T).
Proof.
  revert j s. induction k as [|k IH]; intros j s HQ Hd.
  - exists s. rewrite Nat.add_0_r. auto.
  - destruct (Hstep _ s HQ) as (s' & tr & Hm & Hs').
    destruct (div_mod_step (S T) j ltac:(lia)) as [Hwrap Hnowrap].
    replace (S (j + S k)) with (S (S j + k)) by lia.
    simpl anim_run. rewrite Hm.
    destruct (Nat.eq_dec (S j mod S T) T) as [Hw|Hw].
    + destruct (Hwrap ltac:(lia)) as [Hmod Hq].
      replace (Z.of_nat T <? delay s + 1) with true in * by (symmetry; apply Z.ltb_lt; lia).
      destruct Hs' as [Hd' HQ'].
      destruct (IH (S j) s') as (sk & Hrun & HQk & Hdk).
      * rewrite Hq. exact HQ'.
      * rewrite Hmod, Hd'. reflexivity.
      * rewrite Hrun. exists sk. cbn [seq map]. rewrite Hmod. simpl Nat.eqb. auto.
    + destruct (Hnowrap ltac:(lia)) as [Hmod Hq].
      replace (Z.of_nat T <? delay s + 1) with false in *
        by (symmetry; apply Z.ltb_ge; pose proof (Nat.mod_upper_bound (S j) (S T)); lia).
      destruct Hs' as [Hd' HQ'].
      destruct (IH (S j) s') as (sk & Hrun & HQk & Hdk).
      * rewrite Hq. exact HQ'.
      * rewrite Hmod, Hd', Hd. lia.
      * rewrite Hrun. exists sk. cbn [seq map]. rewrite Hmod. simpl Nat.eqb. auto.
Qed.
End PeriodicRun.

(* animate_wait *)
Lemma random_random_ok s :
  random_random s = Ok (F64.round (rng s (rng_pos s) mod 2 ^ 53) (-53))
                       (set_rng_pos s (S (rng_pos s))) [].
Proof. reflexivity. Qed.

Lemma random_randint_ok a b s :
  random_randint a b s = Ok (a + rng s (rng_pos s) mod (b - a + 1))
                            (set_rng_pos s (S (rng_pos s))) [].
Proof. reflexivity. Qed.

Lemma wait_loop (idxs : list Z) (s : Strip) (buf : list rgb) :
  leds s = Some buf -> Forall (fun i => 0 <= i < Z.of_nat (length buf)) idxs ->
  exists s' tr buf',
    mapM_ (fun i =>
      h <- random_random ;;
      sat <- random_randint 50 100 ;;
      v <- random_random ;;
      leds_set i (Some (hsv h (F64.of_ratio sat 100) v))) idxs s = Ok tt s' tr /\
    leds s' = Some buf' /\ length buf' = length buf /\
    led_count s' = led_count s /\ delay s' = delay s.
Proof.
  revert s buf. induction idxs as [|i idxs IH]; intros s buf Hl Hi.
  - exists s, [], buf. auto.
  - inversion Hi as [|? ? Hi0 Hrest]; subst.
    set (c := hsv (F64.round (rng s (rng_pos s) mod 2 ^ 53) (-53))
                  (F64.of_ratio (50 + rng s (S (rng_pos s)) mod (100 - 50 + 1)) 100)
                  (F64.round (rng s (S (S (rng_pos s))) mod 2 ^ 53) (-53))).
    set (s1 := set_leds (set_rng_pos s (S (S (S (rng_pos s)))))
                        (Some (list_set buf (Z.to_nat i) c))).
    assert (Hb : (h <- random_random ;;
                  sat <- random_randint 50 100 ;;
                  v <- random_random ;;
                  leds_set i (Some (hsv h (F64.of_ratio sat 100) v))) s =
                 Ok tt s1 [OpSet i c]).
    { rewrite (bind_ok_nil _ _ _ _ _ (random_random_ok s)). cbv beta.
      rewrite (bind_ok_nil _ _ _ _ _ (random_randint_ok 50 100 _)). cbv beta.
      rewrite (bind_ok_nil _ _ _ _ _ (random_random_ok _)). cbv beta.
      unfold leds_set. cbn [rng rng_pos set_rng_pos leds]. rewrite Hl, py_index_in by lia.
      reflexivity. }
    destruct (IH s1 (list_set buf (Z.to_nat i) c) eq_refl) as (s' & tr & buf' & Hrun & Hl' & Hlen & Hn & Hd).
    { rewrite length_list_set. exact Hrest. }
    exists s', (OpSet i c :: tr), buf'. cbn [mapM_].
    rewrite (bind_ok _ _ _ _ _ _ Hb), Hrun. rewrite length_list_set in Hlen.
    repeat split; auto.
Qed.

Lemma wait_step (L r : nat) (s : Strip) :
  wait_shape L r s ->
  exists s' tr, animate_wait false s = Ok (Z.of_nat 10 <? delay s + 1) s' tr /\
    if Z.of_nat 10 <? delay s + 1 then delay s' = 0 /\ wait_shape L (S r) s'
    else delay s' = delay s + 1 /\ wait_shape L r s'.
Proof.
  intros (buf & Hl & Hlen & Hn).
  unfold animate_wait, set_delay_m.
  rewrite bind_ret_l, bind_gets, bind_modify, bind_gets. cbn [delay set_delay].
  change (Z.of_nat 10) with 10.
  destruct (10 <? delay s + 1) eqn:E.
  - rewrite bind_modify, bind_gets. cbn [led_count set_delay].
    rewrite Hn, py_range_0_1, Nat2Z.id by lia.
    destruct (wait_loop (map Z.of_nat (seq 0 L)) (set_delay (set_delay s (delay s + 1)) 0) buf Hl)
      as (s' & tr & buf' & Hrun & Hl' & Hlen' & Hn' & Hd').
    { rewrite Forall_map, Forall_forall. intros x Hx. apply in_seq in Hx. lia. }
    rewrite (bind_ok _ _ _ _ _ _ Hrun). cbv beta. unfold ret.
    exists s', (tr ++ []). split; [reflexivity|].
    cbn [delay led_count set_delay] in Hd', Hn'. split; [exact Hd'|].
    exists buf'. split; [exact Hl'|]. split; [lia|]. rewrite Hn'. exact Hn.
  - exists (set_delay s (delay s + 1)), []. split; [reflexivity|].
    split; [reflexivity|]. exists buf. auto.
Qed.

(** X4: when the buffer has led_count pixels, the call of animate_wait that
    enters WAIT returns False and, counting that call as call 1, call n
    returns True (asks for a refresh) exactly when n is a multiple of 11; the
    buffer keeps its length throughout. *)
Theorem wait_refresh_every_11 (s : Strip) (buf : list rgb) :
  leds s = Some buf -> led_count s = Z.of_nat (length buf) ->
  exists s0 tr, animate_wait true s = Ok false s0 tr /\
    forall k, exists ds sk, anim_run animate_wait k s0 = Some (ds, sk) /\
      ds = map (fun t => Nat.eqb (t mod 11) 0) (seq 2 k) /\
      exists buf', leds sk = Some buf' /\ length buf' = length buf.
Proof.
  intros Hl Hn.
  exists (set_delay (set_delay s 0) 1), []. split.
  - unfold animate_wait, set_delay_m.
    rewrite bind_modify, bind_gets, bind_modify, bind_gets. reflexivity.
  - intros k.
    destruct (periodic_run animate_wait 10 (wait_shape (length buf))
                (wait_step (length buf)) k 0 (set_delay (set_delay s 0) 1))
      as (sk & Hrun & (buf' & Hl' & Hlen' & _) & _).
    + exists buf. auto.
    + reflexivity.
    + exists (map (fun t => Nat.eqb (t mod 11) 0) (seq 2 k)), sk. split; [exact Hrun|].
      split; [reflexivity|]. exists buf'. auto.
Qed.

Lemma list_set_map_seq {A} (f : nat -> A) (a len k : nat) (v : A) :
  list_set (map f (seq a len)) k v =
  map (fun i => if Nat.eqb i (a + k) then v else f i) (seq a len).
Proof.
  revert a k. induction len as [|len IH]; intros a k; [reflexivity|].
  cbn [seq map]. destruct k as [|k]; cbn [list_set].
  - rewrite Nat.add_0_r, Nat.eqb_refl. f_equal.
    apply map_ext_in. intros i Hi. apply in_seq in Hi.
    destruct (Nat.eqb_spec i a); [lia|reflexivity].
  - rewrite IH. replace (S a + k)%nat with (a + S k)%nat by lia.
    destruct (Nat.eqb_spec a (a + S k)); [lia|reflexivity].
Qed.

Lemma paint_loop (c : rgb) (n : nat) (idxs : list Z) (g : nat -> rgb) (s : Strip) :
  leds s = Some (map g (seq 0 n)) -> Forall (fun i => 0 <= i < Z.of_nat n) idxs ->
  exists tr, mapM_ (fun i => leds_set i (Some c)) idxs s =
    Ok tt (set_leds s (Some (map (fun i =>
      if existsb (fun j => Nat.eqb i (Z.to_nat j)) idxs then c else g i) (seq 0 n)))) tr.
Proof.
  revert g s. induction idxs as [|j idxs IH]; intros g s Hl Hi.
  - exists []. cbn [existsb mapM_].
    change (ret tt s = Ok tt (set_leds s (Some (map g (seq 0 n)))) []).
    rewrite <- Hl, set_leds_leds. reflexivity.
  - inversion Hi as [|? ? Hj Hrest]; subst.
    set (g' := fun i => if Nat.eqb i (Z.to_nat j) then c else g i).
    assert (Hs : leds_set j (Some c) s =
                 Ok tt (set_leds s (Some (map g' (seq 0 n)))) [OpSet j c]).
    { unfold leds_set. rewrite Hl, length_map, length_seq, py_index_in by lia.
      rewrite list_set_map_seq. reflexivity. }
    destruct (IH g' (set_leds s (Some (map g' (seq 0 n)))) eq_refl Hrest) as [tr Htr].
    exists (OpSet j c :: tr). cbn [mapM_]. rewrite (bind_ok _ _ _ _ _ _ Hs). cbv beta. rewrite Htr.
    rewrite set_leds_twice. do 3 f_equal. apply map_ext. intros i. unfold g'.
    cbn [existsb]. destruct (Nat.eqb i (Z.to_nat j)); simpl;
      destruct (existsb _ idxs); reflexivity.
Qed.

Lemma py_range_step3 (n : nat) (i : nat) :
  (i < n)%nat ->
  existsb (fun j => Nat.eqb i (Z.to_nat j)) (py_range 0 (Z.of_nat n) 3) =
  Nat.eqb (i mod 3) 0.
Proof.
  intros Hi. unfold py_range.
  destruct (Nat.eqb_spec (i mod 3) 0) as [H0|H0].
  - apply existsb_exists. exists (Z.of_nat (3 * (i / 3))). split.
    + apply in_map_iff. exists (i / 3)%nat. split; [lia|].
      apply in_seq. split; [lia|].
      assert (Hq : (Z.of_nat n - 0 + 3 - 1) / 3 * 3 + (Z.of_nat n - 0 + 3 - 1) mod 3
                   = Z.of_nat n - 0 + 3 - 1)
        by (rewrite Z.mul_comm; symmetry; apply Z.div_mod; lia).
      pose proof (Z.mod_pos_bound (Z.of_nat n - 0 + 3 - 1) 3 ltac:(lia)).
      pose proof (Nat.div_mod_eq i 3). pose proof (Nat.mod_upper_bound i 3 ltac:(lia)).
      lia.
    + apply Nat.eqb_eq. pose proof (Nat.div_mod_eq i 3). lia.
  - apply Bool.not_true_iff_false. intros Hex.
    apply existsb_exists in Hex as (j & Hj & Heq).
    apply in_map_iff in Hj as (k & <- & _).
    apply Nat.eqb_eq in Heq. apply H0. subst i.
    replace (Z.to_nat (0 + 3 * Z.of_nat k)) with (k * 3)%nat by lia.
    apply Nat.Div0.mod_mul.
Qed.

Lemma map_black_seq (buf : list rgb) :
  map (fun _ => black) buf = map (fun _ : nat => black) (seq 0 (length buf)).
Proof. rewrite !map_const, length_seq. reflexivity. Qed.

Lemma print_tiles_eq (n : nat) :
  map (fun i => if existsb (fun j => Nat.eqb i (Z.to_nat j)) (py_range 0 (Z.of_nat n) 3)
                then white else black) (seq 0 n) = print_tiles n.
Proof.
  unfold print_tiles. apply map_ext_in. intros i Hi. apply in_seq in Hi.
  rewrite py_range_step3 by lia. reflexivity.
Qed.

Lemma print_paint (s : Strip) (buf : list rgb) :
  leds s = Some buf -> led_count s = Z.of_nat (length buf) ->
  exists tr, animate_print true s =
    Ok false (set_delay (set_leds s (Some (print_tiles (length buf)))) 1) tr.
Proof.
  intros Hl Hn.
  assert (Hfill : leds_fill black (set_delay s 0) =
                  Ok tt (set_leds (set_delay s 0) (Some (map (fun _ : nat => black) (seq 0 (length buf)))))
                     [OpFill black]).
  { unfold leds_fill. cbn [leds set_delay]. rewrite Hl, map_black_seq. reflexivity. }
  destruct (paint_loop white (length buf) (py_range 0 (Z.of_nat (length buf)) 3) (fun _ => black)
              (set_leds (set_delay s 0) (Some (map (fun _ : nat => black) (seq 0 (length buf)))))
              eq_refl) as [tr Hloop].
  { unfold py_range. rewrite Forall_map, Forall_forall. intros k Hk. apply in_seq in Hk.
    assert (Hq : (Z.of_nat (length buf) - 0 + 3 - 1) / 3 * 3 + (Z.of_nat (length buf) - 0 + 3 - 1) mod 3
                 = Z.of_nat (length buf) - 0 + 3 - 1)
      by (rewrite Z.mul_comm; symmetry; apply Z.div_mod; lia).
    pose proof (Z.mod_pos_bound (Z.of_nat (length buf) - 0 + 3 - 1) 3 ltac:(lia)).
    lia. }
  rewrite print_tiles_eq in Hloop.
  assert (Hpaint : (set_delay_m 0 ;;; leds_fill black ;;; n <- gets led_count ;;
                    mapM_ (fun i => leds_set i (Some white)) (py_range 0 n 3)) s =
                   Ok tt (set_leds (set_delay s 0) (Some (print_tiles (length buf))))
                      ([OpFill black] ++ tr)).
  { unfold set_delay_m. rewrite bind_modify, (bind_ok _ _ _ _ _ _ Hfill). cbv beta.
    rewrite bind_gets. cbn [led_count set_leds set_delay]. rewrite Hn, Hloop.
    reflexivity. }
  exists ([OpFill black] ++ tr ++ []). unfold animate_print.
  rewrite (bind_ok _ _ _ _ _ _ Hpaint). cbv beta.
  unfold set_delay_m. rewrite bind_gets, bind_modify, bind_gets. reflexivity.
Qed.

Lemma print_step (s : Strip) (x : rgb) (rest : list rgb) :
  leds s = Some (x :: rest) -> led_count s = Z.of_nat (length (x :: rest)) ->
  exists tr, animate_print false s =
    if 20 <? delay s + 1
    then Ok true (set_leds (set_delay s 0) (Some (rest ++ [x]))) tr
    else Ok false (set_delay s (delay s + 1)) tr.
Proof.
  intros Hl Hn.
  destruct (rotate_leds_spec (set_delay (set_delay s (delay s + 1)) 0) x rest Hl)
    as [tr Htr].
  unfold animate_print, set_delay_m.
  rewrite bind_ret_l, bind_gets, bind_modify, bind_gets. cbn [delay set_delay].
  destruct (20 <? delay s + 1).
  - rewrite bind_modify, bind_gets. cbn [led_count set_delay]. rewrite Hn.
    rewrite (bind_ok _ _ _ _ _ _ Htr). eexists. reflexivity.
  - exists []. reflexivity.
Qed.

Lemma print_rotating_step (tiles : list rgb) (r : nat) (s : Strip) :
  tiles <> [] -> rotating tiles r s ->
  exists s' tr, animate_print false s = Ok (Z.of_nat 20 <? delay s + 1) s' tr /\
    if Z.of_nat 20 <? delay s + 1 then delay s' = 0 /\ rotating tiles (S r) s'
    else delay s' = delay s + 1 /\ rotating tiles r s'.
Proof.
  intros Hne [Hl Hn].
  destruct (rotl r tiles) as [|x rest] eqn:Er.
  { apply (f_equal (@length rgb)) in Er. rewrite length_rotl in Er.
    destruct tiles; [contradiction|discriminate]. }
  assert (Hn' : led_count s = Z.of_nat (length (x :: rest))).
  { rewrite <- Er, length_rotl. exact Hn. }
  destruct (print_step s x rest Hl Hn') as [tr Hstep].
  change (Z.of_nat 20) with 20.
  destruct (20 <? delay s + 1).
  - do 2 eexists. split; [exact Hstep|]. split; [reflexivity|]. split; [|exact Hn].
    cbn [leds set_leds]. change (rotl (S r) tiles) with (rotl1 (rotl r tiles)).
    rewrite Er. reflexivity.
  - do 2 eexists. split; [exact Hstep|]. split; [reflexivity|]. split; [|exact Hn].
    cbn [leds set_delay]. rewrite Er. exact Hl.
Qed.

(** X5: when the buffer is non-empty and has led_count pixels, the call of
    animate_print that enters PRINT paints white every pixel whose index is a
    multiple of 3 and black the others, and returns False. Counting that call
    as call 1, call n returns True exactly when n is a multiple of 21, and
    after call n the painted pattern is rotated left n / 21 times. *)
Theorem print_rotation_period (s : Strip) (buf : list rgb) :
  leds s = Some buf -> buf <> [] -> led_count s = Z.of_nat (length buf) ->
  exists s0 tr, animate_print true s = Ok false s0 tr /\
    leds s0 = Some (print_tiles (length buf)) /\
    forall k, exists ds sk, anim_run animate_print k s0 = Some (ds, sk) /\
      ds = map (fun t => Nat.eqb (t mod 21) 0) (seq 2 k) /\
      leds sk = Some (rotl (S k / 21) (print_tiles (length buf))).
Proof.
  intros Hl Hne Hn.
  destruct (print_paint s buf Hl Hn) as [tr Htr].
  exists (set_delay (set_leds s (Some (print_tiles (length buf)))) 1), tr.
  split; [exact Htr|]. split; [reflexivity|]. intros k.
  assert (Htiles : print_tiles (length buf) <> []).
  { unfold print_tiles. destruct buf; [contradiction|discriminate]. }
  destruct (periodic_run animate_print 20 (rotating (print_tiles (length buf)))
              (fun r s => print_rotating_step _ r s Htiles) k 0
              (set_delay (set_leds s (Some (print_tiles (length buf)))) 1))
    as (sk & Hrun & [Hlk _] & _).
  - split; [reflexivity|]. cbn [led_count set_delay set_leds].
    unfold print_tiles. rewrite length_map, length_seq. exact Hn.
  - reflexivity.
  - exists (map (fun t => Nat.eqb (t mod 21) 0) (seq 2 k)), sk. auto.
Qed.

Lemma show_count_app t1 t2 : show_count (t1 ++ t2) = (show_count t1 + show_count t2)%nat.
Proof. unfold show_count. rewrite filter_app, length_app. reflexivity. Qed.

Lemma show_count_none {A} (m : M A) s a s' tr :
  ops_in not_show m -> m s = Ok a s' tr -> show_count tr = 0%nat.
Proof.
  intros Hm H. apply Hm in H. unfold show_count.
  induction H as [|op t Hop _ IH]; [reflexivity|].
  destruct op; [..|contradiction]; exact IH.
Qed.

Ltac show_none E t :=
  let H := fresh "Hc" in
  assert (H : show_count t = 0%nat)
    by (eapply show_count_none; [|exact E];
        first [ apply ops_render | apply ops_restore | apply ops_leds_fill
              | apply ops_overlay; [..|intros; first [unfold set_left | unfold set_right];
                                          apply ops_modify] ];
        intros; exact I);
  clear E.

Ltac show_parts :=
  repeat match goal with
  | E : render _ _ = Ok _ _ ?t |- _ => show_none E t
  | E : overlay_button _ _ _ _ _ = Ok _ _ ?t |- _ => show_none E t
  | E : restore_button _ _ _ = Ok _ _ ?t |- _ => show_none E t
  | E : leds_fill _ _ = Ok _ _ ?t |- _ => show_none E t
  | E : leds_show _ = Ok _ _ ?t |- _ =>
      unfold leds_show in E; destruct (leds _) in E; inversion E; subst; clear E
  | E : dequeue _ = Ok _ _ _ |- _ => apply dequeue_blinkers in E as (? & _)
  end.

(** X6: one pass of the inner loop of [run] (a tick) that does not raise
    flushes the strip ([leds.show()]) at most once. *)
Theorem tick_at_most_one_show (s : Strip) (r : tick_result) (s' : Strip) (tr : list DevOp) :
  tick s = Ok r s' tr -> (show_count tr <= 1)%nat.
Proof.
  intros H. unfold tick in H. decomp; show_parts; subst;
  rewrite ?show_count_app; cbn [show_count filter is_show length]; lia.
Qed.

Lemma overlay_left_disabled_flag s x ch s' tr :
  enabled (left_btn_blinker s) = false ->
  overlay_button left_btn_led left_btn_blinker set_left false s = Ok (x, ch) s' tr -> ch = false.
Proof.
  intros He H. unfold overlay_button in H. decomp; try congruence.
  unfold blinker_animate in *. rewrite He in *. congruence.
Qed.

Lemma overlay_right_disabled_flag s x ch s' tr :
  enabled (right_btn_blinker s) = false ->
  overlay_button right_btn_led right_btn_blinker set_right false s = Ok (x, ch) s' tr -> ch = false.
Proof.
  intros He H. unfold overlay_button in H. decomp; try congruence.
  unfold blinker_animate in *. rewrite He in *. congruence.
Qed.

(** X7: once FINISH is the current state, the queue is empty and both
    button blinkers are disabled (as entering FINISH leaves them), a tick
    does not flush the strip and the loop goes on. *)
Theorem finish_steady_no_show (s : Strip) (r : tick_result) (s' : Strip) (tr : list DevOp) :
  actual_state s = Some FINISH -> state_queue s = [] ->
  enabled (left_btn_blinker s) = false -> enabled (right_btn_blinker s) = false ->
  tick s = Ok r s' tr -> show_count tr = 0%nat /\ r = TickContinue.
Proof.
  intros Ha Hq HL HR H. unfold tick in H.
  rewrite (bind_ok_nil _ _ _ _ _ (dequeue_nil s Hq)), bind_gets, Ha in H.
  cbn [state_is LedState_eqb] in H. rewrite bind_gets in H.
  destruct (leds s) as [l|] eqn:El.
  2:{ inversion H; subst. split; reflexivity. }
  apply bind_ok_inv in H as (d & s1 & t1 & t2 & Hr & H & ->).
  unfold render in Hr. rewrite bind_gets, Ha in Hr.
  apply bind_ok_inv in Hr as (u & s0 & t0 & t7 & Ef & Hr & ->).
  cbn [when] in Hr. rewrite bind_ret_l in Hr. inversion Hr; subst d s1 t7; clear Hr.
  pose proof Ef as E.
  apply (keeps_leds_fill frame_anim frame_anim_leds) in E as ((_ & _ & _ & _ & _) & HL1 & HR1).
  apply bind_ok_inv in H as ([x1 c1] & s2 & t3 & t4 & Ho1 & H & ->).
  apply bind_ok_inv in H as ([x2 c2] & s3 & t5 & t6 & Ho2 & H & ->).
  pose proof (overlay_left_disabled_flag s0 _ _ _ _ ltac:(congruence) Ho1) as ->.
  pose proof (overlay_left_effect _ _ _ _ _ Ho1) as (_ & HR2 & _).
  pose proof (overlay_right_disabled_flag s2 _ _ _ _ ltac:(congruence) Ho2) as ->.
  cbn [snd orb when] in H. decomp. show_parts. subst.
  split; [|reflexivity].
  rewrite !show_count_app.
  cbn [show_count filter length] in *. lia.
Qed.

(** X8: a tick that acts on CHOSEN with a LED strip present raises when
    [LedState.CHOSEN.capture_nbr] was never set (state_chosen_enter not
    called). *)
Theorem chosen_without_capture_nbr_raises (s : Strip) (buf : list rgb) :
  next_state s = Some CHOSEN -> leds s = Some buf -> capture_nbr s = None ->
  exists tr, tick s = Err tr.
Proof.
  intros Hn Hl Hc. unfold next_state in Hn.
  assert (Hd : exists ch s1, dequeue s = Ok ch s1 [] /\ actual_state s1 = Some CHOSEN /\
                             leds s1 = Some buf /\ capture_nbr s1 = None).
  { destruct (state_queue s) as [|p rest] eqn:Eq.
    - do 2 eexists. rewrite (dequeue_nil s Eq). eauto.
    - injection Hn as ->. do 2 eexists. rewrite (dequeue_cons s CHOSEN rest Eq). eauto. }
  destruct Hd as (ch & s1 & Hd & Ha & Hl1 & Hc1).
  unfold tick. rewrite (bind_ok_nil _ _ _ _ _ Hd), bind_gets, Ha. cbn [state_is LedState_eqb].
  rewrite bind_gets, Hl1.
  assert (Hr : render ch s1 = Err []).
  { unfold render. rewrite bind_gets, Ha. unfold animate_chosen.
    apply bind_err. rewrite bind_gets, Hc1. reflexivity. }
  rewrite (bind_err _ _ _ _ Hr). eauto.
Qed.

Lemma sys_run_cons a acts c :
  sys_run (a :: acts) c =
  let '(c1, t1) := sys_step a c in let '(c2, t2) := sys_run acts c1 in (c2, t1 ++ t2).
Proof. reflexivity. Qed.

(** X9: before the first RECONFIGURE, the strip thread takes states off the
    queue one by one and drops them: with l1 (no RECONFIGURE in it) followed
    by RECONFIGURE and l2 queued, length l1 + 1 steps leave it about to
    configure with only l2 queued, and touch no device. *)
Theorem waiting_config_skips_to_reconfigure (l1 l2 : list LedState) (s : Strip) :
  state_queue s = l1 ++ RECONFIGURE :: l2 ->
  forallb (fun st => negb (LedState_eqb st RECONFIGURE)) l1 = true ->
  sys_run (repeat StripStep (S (length l1))) (mkCtrl WaitingConfig s) =
    (mkCtrl Configuring (set_state_queue s l2), []).
Proof.
  revert s. induction l1 as [|p l1 IH]; intros s Hq Hf.
  - cbn. rewrite Hq. reflexivity.
  - cbn [forallb andb] in Hf. destruct (LedState_eqb p RECONFIGURE) eqn:Ep; [discriminate|].
    assert (Hs : sys_step StripStep (mkCtrl WaitingConfig s) =
                 (mkCtrl WaitingConfig (set_state_queue s (l1 ++ RECONFIGURE :: l2)), [])).
    { cbn [sys_step ctrl_step mode strip]. rewrite Hq. cbn [app]. rewrite Ep. reflexivity. }
    change (repeat StripStep (S (length (p :: l1))))
      with (StripStep :: repeat StripStep (S (length l1))).
    rewrite sys_run_cons, Hs, IH by (reflexivity || exact Hf). reflexivity.
Qed.

Lemma setConfiguration_fields (cfg : Config) (s : Strip) :
  spi_index (setConfiguration cfg s) = (match cfg_spi cfg with None => -1 | Some k => k end) /\
  led_count (setConfiguration cfg s) = cfg_led_count cfg /\
  leds (setConfiguration cfg s) = leds s /\
  ws2801_available (setConfiguration cfg s) = ws2801_available s.
Proof.
  unfold setConfiguration.
  destruct (_ || _ || _ || _) eqn:E; [repeat split; reflexivity|].
  apply orb_false_iff in E as [E E4]. apply orb_false_iff in E as [E E3].
  apply orb_false_iff in E as [E1 E2].
  apply negb_false_iff, Z.eqb_eq in E1. apply negb_false_iff, Z.eqb_eq in E2.
  repeat split; auto.
Qed.

(** X10: without the adafruit_ws2801 library, configure after a
    setConfiguration with an SPI device k > -1 and led_count > 0 leaves no LED
    object and resets spi_index to -1; so a later setConfiguration with the
    same settings sees a change and queues RECONFIGURE again. *)
Theorem no_library_reconfigures_again (s : Strip) (cfg : Config) (k : Z) :
  ws2801_available s = false -> cfg_spi cfg = Some k -> -1 < k -> 0 < cfg_led_count cfg ->
  exists s2, configure (setConfiguration cfg s) = Ok tt s2 [] /\
    leds s2 = None /\ spi_index s2 = -1 /\
    state_queue (setConfiguration cfg s2) = state_queue s2 ++ [RECONFIGURE].
Proof.
  intros Hlib Hspi Hk Hn.
  destruct (setConfiguration_fields cfg s) as (Hs1 & Hn1 & _ & Hl1).
  rewrite Hspi in Hs1.
  unfold configure. rewrite !bind_gets, Hs1, Hn1, Hl1, Hlib.
  replace ((-1 <? k) && (0 <? cfg_led_count cfg)) with true
    by (symmetry; apply andb_true_iff; split; apply Z.ltb_lt; lia).
  cbn [negb]. rewrite bind_modify.
  eexists. split; [reflexivity|]. split; [reflexivity|]. split; [reflexivity|].
  unfold setConfiguration at 1. cbn [spi_index set_actual_state set_leds set_spi_index].
  rewrite Hspi. replace (-1 =? k) with false by (symmetry; apply Z.eqb_neq; lia).
  reflexivity.
Qed.

(** X11: with the library present, configure after a setConfiguration with
    SPI device k >= 0 and led_count > 0 clears the current state and keeps
    led_count; for k = 0 or 1 it creates a fresh buffer of led_count black
    pixels, and for k >= 2 it keeps whatever LED object there was before. *)
Theorem configure_channel_choice (s : Strip) (cfg : Config) (k : Z) :
  ws2801_available s = true -> cfg_spi cfg = Some k -> 0 <= k -> 0 < cfg_led_count cfg ->
  exists s2, configure (setConfiguration cfg s) = Ok tt s2 [] /\
    actual_state s2 = None /\ led_count s2 = cfg_led_count cfg /\
    ((k = 0 \/ k = 1) -> leds s2 = Some (repeat black (Z.to_nat (cfg_led_count cfg)))) /\
    (2 <= k -> leds s2 = leds s).
Proof.
  intros Hlib Hspi Hk Hn.
  destruct (setConfiguration_fields cfg s) as (Hs1 & Hn1 & Hl1 & Hw1).
  rewrite Hspi in Hs1.
  unfold configure. rewrite !bind_gets, Hs1, Hn1, Hw1, Hlib.
  replace ((-1 <? k) && (0 <? cfg_led_count cfg)) with true
    by (symmetry; apply andb_true_iff; split; apply Z.ltb_lt; lia).
  cbn [negb].
  destruct ((k =? 0) || (k =? 1)) eqn:E.
  - rewrite bind_modify. eexists. split; [reflexivity|].
    cbn [actual_state led_count leds set_actual_state set_leds]. rewrite Hn1.
    repeat split; auto. intros H2.
    apply orb_true_iff in E as [E|E]; apply Z.eqb_eq in E; lia.
  - rewrite bind_ret_l. eexists. split; [reflexivity|].
    cbn [actual_state led_count leds set_actual_state]. rewrite Hn1, Hl1.
    repeat split; auto. intros Hk01. apply orb_false_iff in E as [E0 E1].
    apply Z.eqb_neq in E0. apply Z.eqb_neq in E1. lia.
Qed.

Lemma configure_ok (s : Strip) :
  exists s', configure s = Ok tt s' [] /\ state_queue s' = state_queue s /\
             actual_state s' = None.
Proof.
  unfold configure. rewrite !bind_gets.
  destruct ((-1 <? spi_index s) && (0 <? led_count s)).
  - destruct (negb (ws2801_available s)).
    + rewrite bind_modify. eexists. split; [reflexivity|]. auto.
    + destruct ((spi_index s =? 0) || (spi_index s =? 1)).
      * rewrite bind_modify. eexists. split; [reflexivity|]. auto.
      * rewrite bind_ret_l. eexists. split; [reflexivity|]. auto.
  - rewrite bind_modify. eexists. split; [reflexivity|]. auto.
Qed.

(** X12: the first state_wait_enter (no strip object yet) with a led_count
    other than -1 leaves RECONFIGURE then WAIT (or WAIT_OR_PRINT when the
    printer is ready and there is a previous picture) in the queue, and two
    steps of the new thread leave it in the animation loop with no current
    state and only that WAIT state queued. *)
Theorem first_wait_enter_configures (lib : bool) (r : nat -> Z) (cfg : Config)
    (ready pic : bool) :
  cfg_led_count cfg <> -1 ->
  let c := state_wait_enter lib r cfg ready pic None in
  let w := if ready && pic then WAIT_OR_PRINT else WAIT in
  state_queue (strip c) = [RECONFIGURE; w] /\
  exists c2, sys_run [StripStep; StripStep] c = (c2, []) /\
    mode c2 = Running /\ state_queue (strip c2) = [w] /\ actual_state (strip c2) = None.
Proof.
  intros Hn c w.
  assert (Hq : state_queue (strip c) = [RECONFIGURE; w]).
  { unfold c, state_wait_enter, setConfiguration. cbn [ctrl_init strip strip_init spi_index
      led_count left_btn_led right_btn_led].
    replace (negb (-1 =? cfg_led_count cfg)) with true
      by (symmetry; apply negb_true_iff, Z.eqb_neq; lia).
    rewrite orb_true_r, orb_true_l. reflexivity. }
  split; [exact Hq|].
  set (s1 := set_state_queue (strip c) [w]).
  destruct (configure_ok s1) as (s2 & Hc & Hq2 & Ha2).
  exists (mkCtrl Running s2). split; [|auto].
  rewrite sys_run_cons.
  assert (Hs : sys_step StripStep c = (mkCtrl Configuring s1, [])).
  { unfold sys_step, ctrl_step. change (mode c) with WaitingConfig.
    cbv zeta. rewrite Hq. reflexivity. }
  rewrite Hs. cbn [sys_run sys_step ctrl_step mode strip]. rewrite Hc. reflexivity.
Qed.

Lemma list_set_nth_self {A} (l : list A) k d :
  (k < length l)%nat -> list_set l k (nth k l d) = l.
Proof.
  revert k; induction l as [|x l IH]; intros [|k] Hk; simpl in *; try lia; auto.
  rewrite IH by lia. reflexivity.
Qed.

Lemma list_set_twice {A} (l : list A) k a b :
  list_set (list_set l k a) k b = list_set l k b.
Proof. revert k; induction l as [|x l IH]; intros [|k]; simpl; f_equal; auto. Qed.

Lemma list_set_comm {A} (l : list A) i j a b :
  i <> j -> list_set (list_set l i a) j b = list_set (list_set l j b) i a.
Proof.
  revert i j; induction l as [|x l IH]; intros [|i] [|j] Hij; simpl; f_equal; auto; lia.
Qed.

Lemma nth_list_set_other {A} (l : list A) k j v d :
  j <> k -> nth j (list_set l k v) d = nth j l d.
Proof.
  revert k j; induction l as [|x l IH]; intros [|k] [|j] Hjk; simpl; auto; lia.
Qed.

Lemma dequeue_next_state s ch s0 tr :
  dequeue s = Ok ch s0 tr -> actual_state s0 = next_state s.
Proof.
  unfold next_state. destruct (state_queue s) as [|p rest] eqn:Eq.
  - rewrite (dequeue_nil s Eq). intros H; inversion H; reflexivity.
  - rewrite (dequeue_cons s p rest Eq). intros H; inversion H; reflexivity.
Qed.

Lemma overlay_saved_left changed s x s' tr buf :
  overlay_button left_btn_led left_btn_blinker set_left changed s = Ok x s' tr ->
  0 <= left_btn_led s -> leds s = Some buf ->
  fst x = Some (nth (Z.to_nat (left_btn_led s)) buf black).
Proof.
  intros H Hi Hl. unfold overlay_button in H. rewrite bind_gets in H.
  replace (-1 <? left_btn_led s) with true in H by (symmetry; apply Z.ltb_lt; lia).
  apply bind_ok_inv in H as (saved & s1 & t1 & t2 & Hg & H & _).
  unfold leds_get in Hg. rewrite Hl in Hg.
  destruct (py_index _ _) as [k|] eqn:Ep; [|discriminate].
  injection Hg as <- <- _.
  destruct (py_index_some _ _ _ Ep Hi) as [Hk _].
  replace (Z.to_nat (left_btn_led s)) with k by lia.
  decomp; reflexivity.
Qed.

Lemma overlay_saved_right changed s x s' tr buf :
  overlay_button right_btn_led right_btn_blinker set_right changed s = Ok x s' tr ->
  0 <= right_btn_led s -> leds s = Some buf ->
  fst x = Some (nth (Z.to_nat (right_btn_led s)) buf black).
Proof.
  intros H Hi Hl. unfold overlay_button in H. rewrite bind_gets in H.
  replace (-1 <? right_btn_led s) with true in H by (symmetry; apply Z.ltb_lt; lia).
  apply bind_ok_inv in H as (saved & s1 & t1 & t2 & Hg & H & _).
  unfold leds_get in Hg. rewrite Hl in Hg.
  destruct (py_index _ _) as [k|] eqn:Ep; [|discriminate].
  injection Hg as <- <- _.
  destruct (py_index_some _ _ _ Ep Hi) as [Hk _].
  replace (Z.to_nat (right_btn_led s)) with k by lia.
  decomp; reflexivity.
Qed.

Lemma restore_some idx c s u s' tr buf :
  restore_button idx (Some c) s = Ok u s' tr -> 0 <= idx s -> leds s = Some buf ->
  leds s' = Some (list_set buf (Z.to_nat (idx s)) c).
Proof.
  intros H Hi Hl. unfold restore_button in H. rewrite bind_gets in H.
  unfold leds_set in H. rewrite Hl in H.
  destruct (py_index _ _) as [k|] eqn:Ep; [|discriminate].
  destruct (py_index_some _ _ _ Ep Hi) as [Hk _].
  inversion H; subst. cbn [leds set_leds]. do 2 f_equal. lia.
Qed.

Lemma restore_none idx s u s' tr :
  restore_button idx None s = Ok u s' tr -> s' = s.
Proof. intros H. inversion H; reflexivity. Qed.

(** X13: when the two button pixels differ, a tick that animates (neither
    RECONFIGURE nor TERMINATE, a LED object present) ends with the buffer the
    animation painted: the blinker colours written over the button pixels for
    the flush are undone afterwards. *)
Theorem tick_restores_distinct_buttons (s : Strip) (r : tick_result) (s' : Strip)
    (tr : list DevOp) :
  state_is (next_state s) RECONFIGURE = false -> state_is (next_state s) TERMINATE = false ->
  leds s <> None -> left_btn_led s <> right_btn_led s ->
  tick s = Ok r s' tr ->
  exists changed s0 d s1 t, dequeue s = Ok changed s0 [] /\ render changed s0 = Ok d s1 t /\
    leds s' = leds s1.
Proof.
  intros HR HT Hl Hne H. unfold tick in H.
  apply bind_ok_inv in H as (ch & s0 & t0 & t' & Hd & H & _).
  pose proof (dequeue_next_state _ _ _ _ Hd) as Ha0.
  pose proof Hd as Hd'. apply dequeue_blinkers in Hd' as (-> & _ & _ & Hl0 & HiL0 & HiR0).
  rewrite bind_gets, Ha0, HR, HT, bind_gets, Hl0 in H.
  destruct (leds s) as [b0|] eqn:El; [|congruence].
  apply bind_ok_inv in H as (d & s1 & t1 & t'' & Hr & H & _).
  exists ch, s0, d, s1, t1. split; [exact Hd|]. split; [exact Hr|].
  pose proof (render_frame_base ch s0 d s1 t1 Hr) as (HL1 & HR1 & _ & _ & Hlen1).
  assert (Hb1 : exists b1, leds s1 = Some b1).
  { unfold led_len in Hlen1. rewrite Hl0 in Hlen1. destruct (leds s1); [eauto|discriminate]. }
  destruct Hb1 as [b1 Hb1].
  apply bind_ok_inv in H as (x1 & s2 & t2 & t3 & Ho1 & H & _).
  apply bind_ok_inv in H as (x2 & s3 & t4 & t5 & Ho2 & H & _).
  apply bind_ok_inv in H as (u & s4 & t6 & t7 & Hw & H & _).
  apply bind_ok_inv in H as (u1 & s5 & t8 & t9 & Hr1 & H & _).
  apply bind_ok_inv in H as (u2 & s6 & t10 & t11 & Hr2 & H & _).
  inversion H; subst s6; clear H.
  assert (s4 = s3) as ->.
  { unfold when in Hw. destruct (_ || _ || _).
    - unfold leds_show in Hw. destruct (leds s3); inversion Hw; auto.
    - inversion Hw; auto. }
  pose proof (overlay_left_effect _ _ _ _ _ Ho1) as ((HL2 & HR2 & _) & _).
  pose proof (overlay_right_effect _ _ _ _ _ Ho2) as ((HL3 & HR3 & _) & _).
  pose proof (restore_frame _ _ _ _ _ _ Hr1) as ((HL5 & HR5 & _) & _).
  assert (HLR : left_btn_led s1 <> right_btn_led s1) by congruence.
  destruct (Z_le_gt_dec (left_btn_led s1) (-1)) as [HLn|HLp];
  destruct (Z_le_gt_dec (right_btn_led s2) (-1)) as [HRn|HRp].
  - rewrite overlay_skipped in Ho1 by exact HLn. inversion Ho1; subst x1 s2; clear Ho1.
    rewrite overlay_skipped in Ho2 by exact HRn. inversion Ho2; subst x2 s3; clear Ho2.
    apply restore_none in Hr1. apply restore_none in Hr2. subst. reflexivity.
  - rewrite overlay_skipped in Ho1 by exact HLn. inversion Ho1; subst x1 s2; clear Ho1.
    apply restore_none in Hr1. subst s5.
    pose proof (overlay_saved_right _ _ _ _ _ _ Ho2 ltac:(lia) Hb1) as Hx2.
    destruct (overlay_pixel_right _ _ _ _ _ Ho2 ltac:(lia))
      as (b2 & cR & Hb2 & Hk2 & _ & Hl3 & _).
    rewrite Hb1 in Hb2. injection Hb2 as <-.
    rewrite Hx2 in Hr2.
    rewrite (restore_some _ _ _ _ _ _ _ Hr2 ltac:(lia) Hl3), HR3, list_set_twice, Hb1.
    rewrite list_set_nth_self by exact Hk2. reflexivity.
  - pose proof (overlay_saved_left _ _ _ _ _ _ Ho1 ltac:(lia) Hb1) as Hx1.
    destruct (overlay_pixel_left _ _ _ _ _ Ho1 ltac:(lia))
      as (b2 & cL & Hb2 & Hk1 & _ & Hl2 & _).
    rewrite Hb1 in Hb2. injection Hb2 as <-.
    rewrite overlay_skipped in Ho2 by exact HRn. inversion Ho2; subst x2 s3; clear Ho2.
    apply restore_none in Hr2. subst s'.
    rewrite Hx1 in Hr1.
    rewrite (restore_some _ _ _ _ _ _ _ Hr1 ltac:(lia) Hl2), HL2, list_set_twice, Hb1.
    rewrite list_set_nth_self by exact Hk1. reflexivity.
  - pose proof (overlay_saved_left _ _ _ _ _ _ Ho1 ltac:(lia) Hb1) as Hx1.
    destruct (overlay_pixel_left _ _ _ _ _ Ho1 ltac:(lia))
      as (b2 & cL & Hb2 & Hk1 & _ & Hl2 & _).
    rewrite Hb1 in Hb2. injection Hb2 as <-.
    pose proof (overlay_saved_right _ _ _ _ _ _ Ho2 ltac:(lia) Hl2) as Hx2.
    destruct (overlay_pixel_right _ _ _ _ _ Ho2 ltac:(lia))
      as (b3 & cR & Hb3 & Hk2 & _ & Hl3 & _).
    rewrite Hl2 in Hb3. injection Hb3 as <-.
    rewrite length_list_set in Hk2.
    rewrite Hx1 in Hr1. rewrite Hx2 in Hr2.
    pose proof (restore_some _ _ _ _ _ _ _ Hr1 ltac:(lia) Hl3) as Hl5.
    rewrite (restore_some _ _ _ _ _ _ _ Hr2 ltac:(lia) Hl5), Hb1.
    rewrite HL3, HL2, HR5, HR3, HR2.
    assert (Hkk : Z.to_nat (right_btn_led s1) <> Z.to_nat (left_btn_led s1)) by lia.
    rewrite nth_list_set_other by exact Hkk.
    rewrite (list_set_comm (list_set b1 (Z.to_nat (left_btn_led s1)) cL)
      (Z.to_nat (right_btn_led s1)) (Z.to_nat (left_btn_led s1))) by exact Hkk.
    rewrite !list_set_twice.
    rewrite list_set_nth_self by exact Hk1.
    rewrite list_set_nth_self by (rewrite <- HR2; exact Hk2). reflexivity.
Qed.

(** X14: calling setConfiguration a second time with the same configuration
    changes nothing: RECONFIGURE is queued at most once for it. *)
Theorem setConfiguration_twice (cfg : Config) (s : Strip) :
  setConfiguration cfg (setConfiguration cfg s) = setConfiguration cfg s.
Proof.
  set (s1 := setConfiguration cfg s).
  assert (Hf : spi_index s1 = match cfg_spi cfg with None => -1 | Some k => k end /\
               led_count s1 = cfg_led_count cfg /\ left_btn_led s1 = cfg_left_btn_led cfg /\
               right_btn_led s1 = cfg_right_btn_led cfg).
  { unfold s1, setConfiguration.
    destruct (_ || _ || _ || _) eqn:E; [repeat split; reflexivity|].
    apply orb_false_iff in E as [E E4]. apply orb_false_iff in E as [E E3].
    apply orb_false_iff in E as [E1 E2].
    apply negb_false_iff, Z.eqb_eq in E1, E2, E3, E4. auto. }
  destruct Hf as (H1 & H2 & H3 & H4).
  unfold setConfiguration at 1. rewrite H1, H2, H3, H4, !Z.eqb_refl. reflexivity.
Qed.

(** X15: the rotation step shared by animate_processing and animate_print,
    run with the buffer's length as led_count, moves every pixel one place
    left and the first pixel to the end. *)
Theorem rotate_leds_left (s : Strip) (x : rgb) (rest : list rgb) :
  leds s = Some (x :: rest) ->
  exists tr, rotate_leds (Z.of_nat (length (x :: rest))) s =
             Ok tt (set_leds s (Some (rest ++ [x]))) tr.
Proof. exact (rotate_leds_spec s x rest). Qed.

Lemma rotate_leds_left_witness :
  exists tr, rotate_leds 3 (set_leds (strip_init true (fun _ => 0)) (Some [red; green; blue])) =
             Ok tt (set_leds (set_leds (strip_init true (fun _ => 0)) (Some [red; green; blue]))
                       (Some [green; blue; red])) tr.
Proof.
  exact (rotate_leds_left (set_leds (strip_init true (fun _ => 0)) (Some [red; green; blue]))
           red [green; blue] eq_refl).
Defined.

Lemma capture_black_then_white_witness :
  leds demo_strip = Some [red; green; blue] /\
  exists s0 tr, animate_capture true demo_strip = Ok true s0 tr /\
    leds s0 = Some (map (fun _ => black) [red; green; blue]) /\
    forall k, exists sk, anim_run animate_capture k s0 = Some (repeat true k, sk) /\
      leds sk = Some (map (fun _ => if Nat.ltb 4 (S k) then white else black) [red; green; blue]).
Proof.
  split; [reflexivity|]. exact (capture_black_then_white demo_strip _ eq_refl).
Defined.

Lemma wait_refresh_every_11_witness :
  leds demo_strip = Some [red; green; blue] /\
  led_count demo_strip = Z.of_nat (length [red; green; blue]) /\
  exists s0 tr, animate_wait true demo_strip = Ok false s0 tr /\
    forall k, exists ds sk, anim_run animate_wait k s0 = Some (ds, sk) /\
      ds = map (fun t => Nat.eqb (t mod 11) 0) (seq 2 k) /\
      exists buf', leds sk = Some buf' /\ length buf' = length [red; green; blue].
Proof.
  split; [reflexivity|]. split; [reflexivity|].
  exact (wait_refresh_every_11 demo_strip _ eq_refl eq_refl).
Defined.

Lemma print_rotation_period_witness :
  leds demo_strip = Some [red; green; blue] /\ [red; green; blue] <> [] /\
  led_count demo_strip = Z.of_nat (length [red; green; blue]) /\
  exists s0 tr, animate_print true demo_strip = Ok false s0 tr /\
    leds s0 = Some (print_tiles 3) /\
    forall k, exists ds sk, anim_run animate_print k s0 = Some (ds, sk) /\
      ds = map (fun t => Nat.eqb (t mod 21) 0) (seq 2 k) /\
      leds sk = Some (rotl (S k / 21) (print_tiles 3)).
Proof.
  split; [reflexivity|]. split; [discriminate|]. split; [reflexivity|].
  exact (print_rotation_period demo_strip _ eq_refl ltac:(discriminate) eq_refl).
Defined.

Lemma tick_at_most_one_show_witness :
  exists r s' tr, tick (switchState CHOOSE demo_strip) = Ok r s' tr /\
    (show_count tr <= 1)%nat.
Proof.
  eexists _, _, _. split; [vm_compute; reflexivity|].
  eapply (tick_at_most_one_show (switchState CHOOSE demo_strip)).
  vm_compute. reflexivity.
Defined.

Lemma finish_steady_no_show_witness :
  actual_state (set_actual_state demo_strip (Some FINISH)) = Some FINISH /\
  state_queue (set_actual_state demo_strip (Some FINISH)) = [] /\
  enabled (left_btn_blinker (set_actual_state demo_strip (Some FINISH))) = false /\
  enabled (right_btn_blinker (set_actual_state demo_strip (Some FINISH))) = false /\
  exists r s' tr, tick (set_actual_state demo_strip (Some FINISH)) = Ok r s' tr /\
    show_count tr = 0%nat /\ r = TickContinue.
Proof.
  split; [reflexivity|]. split; [reflexivity|]. split; [reflexivity|]. split; [reflexivity|].
  eexists _, _, _. split; [vm_compute; reflexivity|].
  eapply (finish_steady_no_show (set_actual_state demo_strip (Some FINISH)));
    [reflexivity | reflexivity | reflexivity | reflexivity | vm_compute; reflexivity].
Defined.

Lemma chosen_without_capture_nbr_raises_witness :
  next_state (switchState CHOSEN demo_strip) = Some CHOSEN /\
  leds (switchState CHOSEN demo_strip) = Some [red; green; blue] /\
  capture_nbr (switchState CHOSEN demo_strip) = None /\
  exists tr, tick (switchState CHOSEN demo_strip) = Err tr.
Proof.
  split; [reflexivity|]. split; [reflexivity|]. split; [reflexivity|].
  exact (chosen_without_capture_nbr_raises (switchState CHOSEN demo_strip) _
           eq_refl eq_refl eq_refl).
Defined.

Lemma waiting_config_skips_to_reconfigure_witness :
  state_queue (set_state_queue demo_strip [WAIT; RECONFIGURE; CHOOSE]) =
    [WAIT] ++ RECONFIGURE :: [CHOOSE] /\
  forallb (fun st => negb (LedState_eqb st RECONFIGURE)) [WAIT] = true /\
  sys_run (repeat StripStep (S (length [WAIT])))
          (mkCtrl WaitingConfig (set_state_queue demo_strip [WAIT; RECONFIGURE; CHOOSE])) =
    (mkCtrl Configuring (set_state_queue (set_state_queue demo_strip [WAIT; RECONFIGURE; CHOOSE])
                                         [CHOOSE]), []).
Proof.
  split; [reflexivity|]. split; [reflexivity|].
  exact (waiting_config_skips_to_reconfigure [WAIT] [CHOOSE]
           (set_state_queue demo_strip [WAIT; RECONFIGURE; CHOOSE]) eq_refl eq_refl).
Defined.

Lemma no_library_reconfigures_again_witness :
  ws2801_available (strip_init false (fun _ => 0)) = false /\
  cfg_spi (mkConfig (Some 0) 3 0 1) = Some 0 /\ -1 < 0 /\
  0 < cfg_led_count (mkConfig (Some 0) 3 0 1) /\
  exists s2, configure (setConfiguration (mkConfig (Some 0) 3 0 1) (strip_init false (fun _ => 0)))
               = Ok tt s2 [] /\
    leds s2 = None /\ spi_index s2 = -1 /\
    state_queue (setConfiguration (mkConfig (Some 0) 3 0 1) s2) = state_queue s2 ++ [RECONFIGURE].
Proof.
  split; [reflexivity|]. split; [reflexivity|]. split; [lia|]. split; [cbn; lia|].
  exact (no_library_reconfigures_again (strip_init false (fun _ => 0)) (mkConfig (Some 0) 3 0 1) 0
           eq_refl eq_refl ltac:(lia) ltac:(cbn; lia)).
Defined.

Lemma configure_channel_choice_witness :
  ws2801_available (strip_init true (fun _ => 0)) = true /\
  cfg_spi (mkConfig (Some 1) 3 0 1) = Some 1 /\ 0 <= 1 /\
  0 < cfg_led_count (mkConfig (Some 1) 3 0 1) /\
  exists s2, configure (setConfiguration (mkConfig (Some 1) 3 0 1) (strip_init true (fun _ => 0)))
               = Ok tt s2 [] /\
    actual_state s2 = None /\ led_count s2 = cfg_led_count (mkConfig (Some 1) 3 0 1) /\
    ((1 = 0 \/ 1 = 1) -> leds s2 = Some (repeat black (Z.to_nat (cfg_led_count (mkConfig (Some 1) 3 0 1))))) /\
    (2 <= 1 -> leds s2 = leds (strip_init true (fun _ => 0))).
Proof.
  split; [reflexivity|]. split; [reflexivity|]. split; [lia|]. split; [cbn; lia|].
  exact (configure_channel_choice (strip_init true (fun _ => 0)) (mkConfig (Some 1) 3 0 1) 1
           eq_refl eq_refl ltac:(lia) ltac:(cbn; lia)).
Defined.

Lemma first_wait_enter_configures_witness :
  cfg_led_count (mkConfig (Some 0) 3 0 1) <> -1 /\
  let c := state_wait_enter true (fun _ => 0) (mkConfig (Some 0) 3 0 1) true false None in
  let w := if true && false then WAIT_OR_PRINT else WAIT in
  state_queue (strip c) = [RECONFIGURE; w] /\
  exists c2, sys_run [StripStep; StripStep] c = (c2, []) /\
    mode c2 = Running /\ state_queue (strip c2) = [w] /\ actual_state (strip c2) = None.
Proof.
  split; [cbn; lia|].
  exact (first_wait_enter_configures true (fun _ => 0) (mkConfig (Some 0) 3 0 1) true false
           ltac:(cbn; lia)).
Defined.

Lemma tick_restores_distinct_buttons_witness :
  state_is (next_state demo_buttons) RECONFIGURE = false /\
  state_is (next_state demo_buttons) TERMINATE = false /\
  leds demo_buttons <> None /\ left_btn_led demo_buttons <> right_btn_led demo_buttons /\
  exists r s' tr, tick demo_buttons = Ok r s' tr /\
    exists changed s0 d s1 t, dequeue demo_buttons = Ok changed s0 [] /\
      render changed s0 = Ok d s1 t /\ leds s' = leds s1.
Proof.
  split; [reflexivity|]. split; [reflexivity|]. split; [discriminate|]. split; [discriminate|].
  eexists _, _, _. split; [vm_compute; reflexivity|].
  eapply (tick_restores_distinct_buttons demo_buttons);
    [reflexivity | reflexivity | discriminate | discriminate | vm_compute; reflexivity].
Defined.
